(** * YouTube summarizer backend: the URL parser, the duration formatter,
      the formatting cleanup and the two request handlers.

    Source files: [src/server.js] (the persistent Express server) and
    [src/summarize-function.js] (the single-invocation function).

    JavaScript strings are sequences of UTF-16 code units; they are modelled
    as [list N].  The regular expressions of the source are kept as syntax
    trees and run by a small backtracking matcher that follows the
    ECMAScript semantics of the constructs the source uses. *)

From Stdlib Require Import String Ascii.
From Stdlib Require Import List NArith Arith Bool Lia.
Import ListNotations.

Local Open Scope N_scope.

(** ** Strings as UTF-16 code units *)

Definition jsstring := list N.

Fixpoint bytes_of (s : string) : list N :=
  match s with
  | EmptyString => []
  | String a t => N_of_ascii a :: bytes_of t
  end.

(** The literals of the source are UTF-8 text; a JavaScript engine holds
    them as UTF-16.  Code points above U+FFFF become a surrogate pair. *)
Fixpoint utf16_of_utf8 (bs : list N) : jsstring :=
  match bs with
  | [] => []
  | b0 :: t0 =>
    if b0 <? 128 then b0 :: utf16_of_utf8 t0
    else match t0 with
    | [] => [b0]
    | b1 :: t1 =>
      if b0 <? 224 then
        N.lor (N.shiftl (N.land b0 31) 6) (N.land b1 63) :: utf16_of_utf8 t1
      else match t1 with
      | [] => [b0; b1]
      | b2 :: t2 =>
        if b0 <? 240 then
          N.lor (N.shiftl (N.land b0 15) 12)
                (N.lor (N.shiftl (N.land b1 63) 6) (N.land b2 63))
            :: utf16_of_utf8 t2
        else match t2 with
        | [] => [b0; b1; b2]
        | b3 :: t3 =>
          let cp := N.lor (N.shiftl (N.land b0 7) 18)
                   (N.lor (N.shiftl (N.land b1 63) 12)
                   (N.lor (N.shiftl (N.land b2 63) 6) (N.land b3 63))) in
          let v := cp - 65536 in
          (55296 + N.shiftr v 10) :: (56320 + N.land v 1023)
            :: utf16_of_utf8 t3
        end
      end
    end
  end.

Definition lit (s : string) : jsstring := utf16_of_utf8 (bytes_of s).

Definition LF : N := 10.
Definition QUOTE : N := 34.

Definition eqb_str (a b : jsstring) : bool :=
  if list_eq_dec N.eq_dec a b then true else false.

(** [!!s] for a string. *)
Definition truthy (s : jsstring) : bool :=
  match s with [] => false | _ => true end.

(** [!!v] for a value that is a string, [undefined] or [null]. *)
Definition truthy_opt (v : option jsstring) : bool :=
  match v with Some s => truthy s | None => false end.

(** ** Character classes of ECMAScript regular expressions *)

Definition is_line_terminator (c : N) : bool :=
  (c =? 10) || (c =? 13) || (c =? 8232) || (c =? 8233).

(** [\s], also the set removed by [String.prototype.trim]: WhiteSpace and
    LineTerminator. *)
Definition is_space (c : N) : bool :=
  ((9 <=? c) && (c <=? 13)) || (c =? 32) || (c =? 160) || (c =? 5760)
  || ((8192 <=? c) && (c <=? 8202)) || (c =? 8232) || (c =? 8233)
  || (c =? 8239) || (c =? 8287) || (c =? 12288) || (c =? 65279).

(** [\d] *)
Definition is_digit (c : N) : bool := (48 <=? c) && (c <=? 57).

(** [\w] *)
Definition is_word (c : N) : bool :=
  ((97 <=? c) && (c <=? 122)) || ((65 <=? c) && (c <=? 90))
  || is_digit c || (c =? 95).

(** [.] without the [s] flag *)
Definition dot (c : N) : bool := negb (is_line_terminator c).

(** ** Regular expressions: the constructs the source uses *)

Inductive regex : Type :=
| Eps
| Chr (c : N)                     (* a literal character *)
| Cls (p : N -> bool)             (* a class, an escape or the dot *)
| Seq (r1 r2 : regex)
| Alt (r1 r2 : regex)             (* r1|r2, left first *)
| Star (p : N -> bool)            (* greedy X* on a one-character X *)
| AtLeast (n : nat) (p : N -> bool)  (* greedy X{n,}; X+ is X{1,} *)
| Opt (r : regex)                 (* greedy (r)? *)
| Grp (i : nat) (r : regex)       (* capturing group number i *)
| Bol                             (* ^ *)
| Eol.                            (* $ *)

Definition str (l : jsstring) : regex :=
  fold_right (fun c r => Seq (Chr c) r) Eps l.

Definition captures := list (nat * jsstring).

Fixpoint cap (i : nat) (caps : captures) : option jsstring :=
  match caps with
  | [] => None
  | (j, v) :: t => if Nat.eqb i j then Some v else cap i t
  end.

(** The text consumed between two positions of the same input. *)
Definition consumed (s s' : jsstring) : jsstring :=
  firstn (length s - length s') s.

Definition at_bol (ml : bool) (pre : jsstring) : bool :=
  match pre with
  | [] => true
  | c :: _ => ml && is_line_terminator c
  end.

Definition at_eol (ml : bool) (s : jsstring) : bool :=
  match s with
  | [] => true
  | c :: _ => ml && is_line_terminator c
  end.

Section Matcher.
Context {A : Type}.

(** A position is the reversed text before it and the text after it.
    Continuations receive the position reached and the captures. *)
Definition cont := jsstring -> jsstring -> captures -> option A.

Fixpoint star (p : N -> bool) (pre s : jsstring) (caps : captures)
         (k : cont) {struct s} : option A :=
  match s with
  | c :: t =>
    if p c then
      match star p (c :: pre) t caps k with
      | Some x => Some x
      | None => k pre s caps
      end
    else k pre s caps
  | [] => k pre s caps
  end.

Fixpoint atleast (n : nat) (p : N -> bool) (pre s : jsstring)
         (caps : captures) (k : cont) {struct n} : option A :=
  match n with
  | O => star p pre s caps k
  | S n' =>
    match s with
    | c :: t => if p c then atleast n' p (c :: pre) t caps k else None
    | [] => None
    end
  end.

(** [ml] is the [m] flag. *)
Fixpoint m (ml : bool) (r : regex) (pre s : jsstring) (caps : captures)
         (k : cont) {struct r} : option A :=
  match r with
  | Eps => k pre s caps
  | Chr c =>
    match s with
    | x :: t => if x =? c then k (x :: pre) t caps else None
    | [] => None
    end
  | Cls p =>
    match s with
    | x :: t => if p x then k (x :: pre) t caps else None
    | [] => None
    end
  | Seq r1 r2 =>
    m ml r1 pre s caps (fun pre' s' caps' => m ml r2 pre' s' caps' k)
  | Alt r1 r2 =>
    match m ml r1 pre s caps k with
    | Some x => Some x
    | None => m ml r2 pre s caps k
    end
  | Star p => star p pre s caps k
  | AtLeast n p => atleast n p pre s caps k
  | Opt r1 =>
    match m ml r1 pre s caps k with
    | Some x => Some x
    | None => k pre s caps
    end
  | Grp i r1 =>
    m ml r1 pre s caps
      (fun pre' s' caps' => k pre' s' ((i, consumed s s') :: caps'))
  | Bol => if at_bol ml pre then k pre s caps else None
  | Eol => if at_eol ml s then k pre s caps else None
  end.
End Matcher.

(** One attempt at a fixed position: the matched text and the captures. *)
Definition exec (ml : bool) (r : regex) (pre s : jsstring)
  : option (jsstring * captures) :=
  m ml r pre s [] (fun _ s' caps => Some (consumed s s', caps)).

(** [s.match(re)] for a regular expression without the [g] flag: the
    leftmost position at which an attempt succeeds. *)
Fixpoint search (ml : bool) (r : regex) (pre s : jsstring)
  : option (jsstring * captures) :=
  match exec ml r pre s with
  | Some x => Some x
  | None =>
    match s with
    | [] => None
    | c :: t => search ml r (c :: pre) t
    end
  end.

Definition js_match (ml : bool) (r : regex) (s : jsstring) := search ml r [] s.

(** [s.replace(re, f)] for a regular expression with the [g] flag.  The
    input is walked once; [skip] counts the characters still covered by the
    last match.  After an empty match the next character is copied and the
    search resumes behind it. *)
Fixpoint replace_g (ml : bool) (r : regex)
         (f : jsstring -> captures -> jsstring)
         (pre s : jsstring) (skip : nat) {struct s} : jsstring :=
  match skip with
  | S n =>
    match s with
    | [] => []
    | c :: t => replace_g ml r f (c :: pre) t n
    end
  | O =>
    match exec ml r pre s with
    | Some (w, caps) =>
      f w caps ++
      match s with
      | [] => []
      | c :: t =>
        match length w with
        | O => c :: replace_g ml r f (c :: pre) t O
        | S n => replace_g ml r f (c :: pre) t n
        end
      end
    | None =>
      match s with
      | [] => []
      | c :: t => c :: replace_g ml r f (c :: pre) t O
      end
    end
  end.

Definition js_replace_g ml r f (s : jsstring) : jsstring :=
  replace_g ml r f [] s O.

(** ** Other string operations *)

Fixpoint dropWhile (p : N -> bool) (s : jsstring) : jsstring :=
  match s with
  | c :: t => if p c then dropWhile p t else s
  | [] => []
  end.

Fixpoint takeWhile (p : N -> bool) (s : jsstring) : jsstring :=
  match s with
  | c :: t => if p c then c :: takeWhile p t else []
  | [] => []
  end.

(** [s.trim()] *)
Definition trim (s : jsstring) : jsstring :=
  rev (dropWhile is_space (rev (dropWhile is_space s))).

Fixpoint starts_with (pat s : jsstring) : bool :=
  match pat, s with
  | [], _ => true
  | _ :: _, [] => false
  | a :: pat', b :: s' => (a =? b) && starts_with pat' s'
  end.

(** Whether [P] holds of the text at some position of [s]. *)
Fixpoint anywhere (P : jsstring -> bool) (s : jsstring) : bool :=
  P s ||
  match s with
  | [] => false
  | _ :: t => anywhere P t
  end.

(** [s.includes(pat)] *)
Definition includes (pat s : jsstring) : bool := anywhere (starts_with pat) s.

(** [s.replace(pat, rep)] with a string pattern: the first occurrence. *)
Fixpoint replace_first (pat rep s : jsstring) : jsstring :=
  if starts_with pat s then rep ++ skipn (length pat) s
  else match s with
       | [] => []
       | c :: t => c :: replace_first pat rep t
       end.

(** [s.length] *)
Definition len (s : jsstring) : N := N.of_nat (length s).

(** [s.substring(0, n)] *)
Definition substring0 (n : N) (s : jsstring) : jsstring :=
  firstn (N.to_nat n) s.

(** [a.join(sep)] on an array of strings *)
Fixpoint join (sep : jsstring) (l : list jsstring) : jsstring :=
  match l with
  | [] => []
  | [x] => x
  | x :: t => x ++ sep ++ join sep t
  end.

(** ** The URL parser ([extractVideoId], identical in both files) *)

(** The pattern: [^], [.*], group 1 [youtu.be\/|v\/|u\/\w\/|embed\/|watch\?v=|&v=],
    group 2 [[^#&?]*], [.*].  The dot of [youtu.be] is not escaped in the
    source, so it is the wildcard. *)
Definition not_delim (c : N) : bool :=
  negb ((c =? 35) || (c =? 38) || (c =? 63)).

Definition re_marker : regex :=
  Alt (Seq (str (lit "youtu")) (Seq (Cls dot) (str (lit "be/"))))
 (Alt (str (lit "v/"))
 (Alt (Seq (str (lit "u/")) (Seq (Cls is_word) (Chr 47)))
 (Alt (str (lit "embed/"))
 (Alt (str (lit "watch?v="))
      (str (lit "&v=")))))).

Definition re_video : regex :=
  Seq Bol (Seq (Star dot)
  (Seq (Grp 1 re_marker) (Seq (Grp 2 (Star not_delim)) (Star dot)))).

Definition extractVideoId (url : jsstring) : option jsstring :=
  match js_match false re_video url with
  | Some (_, caps) =>
    match cap 2 caps with
    | Some g2 => if len g2 =? 11 then Some g2 else None
    | None => None
    end
  | None => None
  end.

(** ** The duration formatter ([formatDuration]) *)

(** [/PT(\d+H)?(\d+M)?(\d+S)?/] *)
Definition re_duration : regex :=
  Seq (str (lit "PT"))
 (Seq (Opt (Grp 1 (Seq (AtLeast 1 is_digit) (Chr 72))))
 (Seq (Opt (Grp 2 (Seq (AtLeast 1 is_digit) (Chr 77))))
      (Opt (Grp 3 (Seq (AtLeast 1 is_digit) (Chr 83)))))).

(** [match[i] || ''] *)
Definition or_empty (v : option jsstring) : jsstring :=
  match v with Some s => s | None => [] end.

(** The argument is a string, or [None] for [null] and [undefined]. *)
Definition formatDuration (duration : option jsstring) : jsstring :=
  match duration with
  | None => lit "Unknown"
  | Some d =>
    if negb (truthy d) then lit "Unknown"
    else
      match js_match false re_duration d with
      | None => d
      | Some (_, caps) =>
        let hours := replace_first (lit "H") [] (or_empty (cap 1 caps)) in
        let minutes := replace_first (lit "M") [] (or_empty (cap 2 caps)) in
        let seconds := replace_first (lit "S") [] (or_empty (cap 3 caps)) in
        let result := [] in
        let result :=
          if truthy hours then result ++ hours ++ lit "h " else result in
        let result :=
          if truthy minutes then result ++ minutes ++ lit "m " else result in
        let result :=
          if truthy seconds then result ++ seconds ++ lit "s" else result in
        if truthy (trim result) then trim result else d
      end
  end.

(** [v || d] for a string, [undefined] or [null] on the left. *)
Definition or_default (v : option jsstring) (d : jsstring) : jsstring :=
  match v with
  | Some s => if truthy s then s else d
  | None => d
  end.

(** ** The formatting cleanup ([cleanFormatting]) *)

Definition STAR : N := 42.

(** [/\*\*\*\*/g] replaced by two asterisks *)
Definition re_quad : regex := str [STAR; STAR; STAR; STAR].
Definition fixQuadAsterisks (text : jsstring) : jsstring :=
  js_replace_g false re_quad (fun _ _ => [STAR; STAR]) text.

(** [/(\d+)\.\s*/g] replaced by two newlines, two asterisks, group 1,
    a period, two asterisks and a space *)
Definition re_numbered : regex :=
  Seq (Grp 1 (AtLeast 1 is_digit)) (Seq (Chr 46) (Star is_space)).
Definition formatNumberedLists (text : jsstring) : jsstring :=
  js_replace_g false re_numbered
    (fun _ caps =>
       [LF; LF; STAR; STAR] ++ or_empty (cap 1 caps) ++ lit ".** ")
    text.

(** [/\n{3,}/g] replaced by two newlines *)
Definition re_newlines : regex := AtLeast 3 (fun c => c =? LF).
Definition cleanNewlines (text : jsstring) : jsstring :=
  js_replace_g false re_newlines (fun _ _ => [LF; LF]) text.

(** [/^(.+):$/gm] replaced by two asterisks, group 1, a colon and two
    asterisks *)
Definition re_header : regex :=
  Seq Bol (Seq (Grp 1 (AtLeast 1 dot)) (Seq (Chr 58) Eol)).
Definition boldHeaders (text : jsstring) : jsstring :=
  js_replace_g true re_header
    (fun _ caps => [STAR; STAR] ++ or_empty (cap 1 caps) ++ lit ":**")
    text.

Definition cleanFormatting (text : jsstring) : jsstring :=
  trim (boldHeaders (cleanNewlines (formatNumberedLists
    (fixQuadAsterisks text)))).

(** ** Values exchanged with the outside *)

(** The object handed to [JSON.stringify] or [res.json], before it is
    serialised.  A field holding [JUndefined] is dropped by the
    serialisation. *)
#[warnings="-register-all"]
Inductive json : Type :=
| JUndefined
| JNull
| JBool (b : bool)
| JNum (n : N)
| JStr (s : jsstring)
| JArr (l : list json)
| JObj (fields : list (string * json)).

Fixpoint assoc (k : string) (fields : list (string * json)) : option json :=
  match fields with
  | [] => None
  | (k', v) :: t => if String.eqb k k' then Some v else assoc k t
  end.

(** [j.k]; [None] when [j] is not an object or has no such field. *)
Definition field (k : string) (j : json) : option json :=
  match j with
  | JObj fields => assoc k fields
  | _ => None
  end.

Definition of_opt (v : option jsstring) : json :=
  match v with Some s => JStr s | None => JUndefined end.

(** A value inside a template literal. *)
Definition template_str (v : option jsstring) : jsstring :=
  match v with Some s => s | None => lit "undefined" end.

(** What a call that can throw produces: the value, or the message of the
    error. *)
Definition outcome (T : Type) : Type := (T + jsstring)%type.

(** One item of the response of the video-metadata API. *)
Module Api.
Record snippet := {
  title : option jsstring;
  description : option jsstring;
  channelTitle : option jsstring;
  publishedAt : option jsstring;
  tags : option (list jsstring);
  categoryId : option jsstring;
  thumbnails : option json }.
Record statistics := {
  viewCount : option jsstring;
  likeCount : option jsstring;
  commentCount : option jsstring }.
Record contentDetails := { duration : option jsstring }.
Record video := {
  v_snippet : option snippet;
  v_statistics : option statistics;
  v_contentDetails : option contentDetails }.
End Api.

(** The normalised metadata record; a field is [None] where the JavaScript
    object has no such property. *)
Record metadata := {
  title : option jsstring;
  description : option jsstring;
  channelTitle : option jsstring;
  publishedAt : option jsstring;
  tags : option (list jsstring);
  categoryId : option jsstring;
  viewCount : option jsstring;
  likeCount : option jsstring;
  commentCount : option jsstring;
  duration : option jsstring;
  thumbnails : option json }.

Record generationConfig := {
  temperature_tenths : N;   (* 0.7 is 7 *)
  topP_tenths : N;
  maxOutputTokens : N }.

(** Everything a request reads from outside: the process environment, the
    three remote services, the clock and the locale formatting. *)
Record Env := {
  GEMINI_API_KEY : option jsstring;
  YOUTUBE_API_KEY : option jsstring;
  (* axios.get on the videos endpoint, by id and key: response.data.items *)
  axios_get_videos : jsstring -> jsstring -> outcome (list Api.video);
  (* YoutubeTranscript.fetchTranscript: the text of each caption fragment *)
  fetchTranscript : jsstring -> outcome (list jsstring);
  (* getGenerativeModel, generateContent and response.text() *)
  generateContent :
    jsstring -> jsstring -> generationConfig -> outcome jsstring;
  (* new Date().toISOString() *)
  now_toISOString : jsstring;
  (* Number(x).toLocaleString() *)
  number_toLocaleString : jsstring -> jsstring;
  (* new Date(x).toLocaleDateString() *)
  date_toLocaleDateString : jsstring -> jsstring }.

(** The fields read from the request body; [None] for a missing field. *)
Record request_body := {
  youtube_link : option jsstring;
  model : option jsstring;
  additional_prompt : option jsstring }.

(** ** The fetchers *)

Definition getVideoMetadata (env : Env) (videoId : jsstring)
  : outcome metadata :=
  let failed msg := inr (lit "Failed to fetch video metadata: " ++ msg) in
  match YOUTUBE_API_KEY env with
  | None => failed (lit "YouTube API key not configured")
  | Some key =>
    if negb (truthy key) then failed (lit "YouTube API key not configured")
    else
      match axios_get_videos env videoId key with
      | inr msg => failed msg
      | inl [] => failed (lit "Video not found")
      | inl (video :: _) =>
        match Api.v_snippet video, Api.v_statistics video,
              Api.v_contentDetails video with
        | Some sn, Some st, Some cd =>
          inl {| title := Api.title sn;
                 description := Some (or_default (Api.description sn) []);
                 channelTitle := Api.channelTitle sn;
                 publishedAt := Api.publishedAt sn;
                 tags := Some (match Api.tags sn with
                               | Some l => l | None => [] end);
                 categoryId := Api.categoryId sn;
                 viewCount := Api.viewCount st;
                 likeCount := Api.likeCount st;
                 commentCount := Api.commentCount st;
                 duration := Api.duration cd;
                 thumbnails := Api.thumbnails sn |}
        | None, _, _ =>
          failed (lit "Cannot read properties of undefined (reading 'title')")
        | _, None, _ =>
          failed
            (lit "Cannot read properties of undefined (reading 'viewCount')")
        | _, _, None =>
          failed
            (lit "Cannot read properties of undefined (reading 'duration')")
        end
      end
  end.

(** [null] is [None]. *)
Definition getVideoTranscript (env : Env) (videoId : jsstring)
  : option jsstring :=
  match fetchTranscript env videoId with
  | inl transcript => Some (join (lit " ") transcript)
  | inr _ => None
  end.

(** The record substituted when the metadata fetch throws. *)
Definition placeholder_metadata : metadata :=
  {| title := Some (lit "Title unavailable");
     description := Some (lit "Metadata unavailable");
     channelTitle := Some (lit "Unknown");
     publishedAt := None; tags := None; categoryId := None;
     viewCount := None; likeCount := None; commentCount := None;
     duration := None; thumbnails := None |}.

(** ** The prompt composer (the template of [exports.handler]) *)

Definition lines (l : list jsstring) : jsstring := join [LF] l.

Definition prompt_details (env : Env) (md : metadata) : jsstring :=
  lines [
    lit "Please analyze this YouTube video using the following information:";
    [];
    lit "**📺 VIDEO DETAILS:**";
    lit "- Title: " ++ template_str (title md);
    lit "- Channel: " ++ template_str (channelTitle md);
    lit "- Duration: " ++ formatDuration (duration md);
    lit "- Views: " ++
      (if truthy_opt (viewCount md)
       then number_toLocaleString env (or_empty (viewCount md))
       else lit "Unknown");
    lit "- Published: " ++
      (if truthy_opt (publishedAt md)
       then date_toLocaleDateString env (or_empty (publishedAt md))
       else lit "Unknown");
    lit "- Likes: " ++
      (if truthy_opt (likeCount md)
       then number_toLocaleString env (or_empty (likeCount md))
       else lit "Unknown")
  ].

Definition prompt_description (md : metadata) : jsstring :=
  match description md with
  | Some d =>
    if truthy d
    then substring0 1000 d ++
         (if 1000 <? len d then lit "..." else [])
    else lit "No description available"
  | None => lit "No description available"
  end.

Definition prompt_tags (md : metadata) : jsstring :=
  match tags md with
  | Some l =>
    if Nat.ltb 0 (length l)
    then lit "**🏷️ TAGS:** " ++ join (lit ", ") (firstn 10 l)
    else []
  | None => []
  end.

Definition prompt_transcript (transcript : option jsstring) : jsstring :=
  match transcript with
  | Some t =>
    if truthy t
    then lit "**📝 VIDEO TRANSCRIPT:**" ++ [LF] ++ substring0 6000 t ++
         (if 6000 <? len t
          then lit "...(transcript continues)" else [])
    else lit "**📝 TRANSCRIPT:** Not available (video may not have captions)"
  | None =>
    lit "**📝 TRANSCRIPT:** Not available (video may not have captions)"
  end.

Definition prompt_request : jsstring :=
  lines [
    lit "**🎯 ANALYSIS REQUEST:**";
    lit "Based on the above information, please provide a comprehensive analysis with the following structure:";
    [];
    lit "🎬 **Video Overview**";
    lit "What is this video about? What's the main topic?";
    [];
    lit "🎯 **Purpose & Goals** ";
    lit "What is the creator trying to achieve or teach?";
    [];
    lit "🔑 **Key Points & Takeaways**";
    lit "List the most important points discussed (based on transcript if available)";
    [];
    lit "💡 **Main Insights & Lessons**";
    lit "What are the key insights viewers will gain?";
    [];
    lit "👥 **Target Audience**";
    lit "Who would benefit most from watching this video?";
    [];
    lit "📚 **Content Type & Style**";
    lit "Educational, entertainment, tutorial, review, etc.";
    [];
    lit "⭐ **Value Proposition**";
    lit "What specific value does this video provide?";
    [];
    lit "📋 **Summary**";
    lit "Provide a comprehensive summary of the content";
    [];
    lit "IMPORTANT: Use the emoji headers exactly as shown above (🎬 **Video Overview**, not " ++ [QUOTE] ++ lit "Video Overview" ++ [QUOTE] ++ lit " followed by " ++ [QUOTE] ++ lit "🎬 Video Overview" ++ [QUOTE] ++ lit "). Do not repeat section titles."
  ].

(** The template literal of the handler. *)
Definition basePrompt (env : Env) (md : metadata)
           (transcript : option jsstring) : jsstring :=
  lines [
    prompt_details env md;
    [];
    lit "**📄 DESCRIPTION:**";
    prompt_description md;
    [];
    prompt_tags md;
    [];
    prompt_transcript transcript;
    [];
    prompt_request
  ].

Definition special_instructions (additional_prompt : option jsstring)
  : jsstring :=
  match additional_prompt with
  | Some a =>
    if truthy a && truthy (trim a)
    then [LF; LF] ++ lit "**🎨 SPECIAL INSTRUCTIONS:** " ++ a
    else []
  | None => []
  end.

Definition formatting_20 : jsstring :=
  [LF; LF] ++ lit "**FORMATTING INSTRUCTIONS:** Please structure your response with clear emoji headers (🎬, 🎯, 🔑, etc.) and use bullet points with * for lists. Use **bold** for emphasis.".

Definition formatting_15 : jsstring :=
  [LF; LF] ++ lit "**FORMATTING INSTRUCTIONS:** Please use the emoji section headers exactly as specified above. Do NOT write plain text headers before emoji headers. Start each section directly with the emoji (e.g., '🎬 **Video Overview**' not 'Video Overview' followed by '🎬 Video Overview').".

Definition is_20 (modelName : jsstring) : bool := includes (lit "2.0") modelName.

Definition composePrompt (env : Env) (md : metadata)
           (transcript : option jsstring) (additional_prompt : option jsstring)
           (modelName : jsstring) : jsstring :=
  basePrompt env md transcript ++ special_instructions additional_prompt ++
  (if is_20 modelName then formatting_20 else formatting_15).

Definition configFor (modelName : jsstring) : generationConfig :=
  if is_20 modelName
  then {| temperature_tenths := 6; topP_tenths := 8; maxOutputTokens := 8192 |}
  else {| temperature_tenths := 7; topP_tenths := 8; maxOutputTokens := 3000 |}.

(** ** The single-invocation function ([exports.handler]) *)

Record response := {
  statusCode : N;
  headers : list (string * string);
  body : json }.

(** [event.body] is JSON text; the handler parses it and reads three
    fields.  [inr msg] stands for a body on which [JSON.parse] or the
    destructuring throws an error with message [msg]. *)
Record event := {
  httpMethod : jsstring;
  event_body : outcome request_body }.

Definition cors_headers : list (string * string) :=
  [("Access-Control-Allow-Origin", "*");
   ("Access-Control-Allow-Headers", "Content-Type");
   ("Access-Control-Allow-Methods", "GET, POST, PUT, DELETE")]%string.

Definition respond (status : N) (b : json) : response :=
  {| statusCode := status; headers := cors_headers; body := b |}.

Definition failure_body (msg : jsstring) : json :=
  JObj [("error", JStr (lit "Failed to analyze video"));
        ("details", JStr msg)]%string.

Definition analysis_quality (md : metadata) (transcript : option jsstring)
  : json :=
  JObj [("has_metadata", JBool (truthy_opt (title md)));
        ("has_transcript", JBool (truthy_opt transcript));
        ("transcript_length",
           JNum (if truthy_opt transcript
                 then len (or_empty transcript) else 0));
        ("content_richness",
           JStr (if truthy_opt transcript
                 then lit "High" else lit "Medium"))]%string.

Definition video_metadata (md : metadata) : json :=
  JObj [("title", of_opt (title md));
        ("channel", of_opt (channelTitle md));
        ("duration", JStr (formatDuration (duration md)));
        ("views", of_opt (viewCount md));
        ("likes", of_opt (likeCount md));
        ("published", of_opt (publishedAt md))]%string.

(** The two fetches of the handler, each with its fallback. *)
Definition fetchBoth (env : Env) (videoId : jsstring)
  : metadata * option jsstring :=
  (match getVideoMetadata env videoId with
   | inl md => md
   | inr _ => placeholder_metadata
   end,
   getVideoTranscript env videoId).

(** The body of the 200 response. *)
Definition success_body (env : Env) (summary modelName link videoId : jsstring)
           (md : metadata) (transcript : option jsstring) : json :=
  JObj [("success", JBool true);
        ("summary", JStr summary);
        ("model_used", JStr modelName);
        ("video_url", JStr link);
        ("video_id", JStr videoId);
        ("video_metadata", video_metadata md);
        ("analysis_quality", analysis_quality md transcript);
        ("timestamp", JStr (now_toISOString env))]%string.

(** From the prompt to the response, once both fetches have settled. *)
Definition generate (env : Env) (b : request_body) (link videoId : jsstring)
           (md : metadata) (transcript : option jsstring) : response :=
  let modelName := or_default (model b) (lit "gemini-1.5-flash") in
  let prompt :=
    composePrompt env md transcript (additional_prompt b) modelName in
  match generateContent env modelName prompt (configFor modelName) with
  | inr msg => respond 500 (failure_body msg)
  | inl text =>
    let summary := if is_20 modelName then cleanFormatting text else text in
    respond 200 (success_body env summary modelName link videoId md transcript)
  end.

(** The [try] block of the handler on a parsed body. *)
Definition summarize (env : Env) (b : request_body) : response :=
  if negb (truthy_opt (youtube_link b)) then
    respond 400 (JObj [("error", JStr (lit "YouTube link is required"))]%string)
  else
    let link := or_empty (youtube_link b) in
    match extractVideoId link with
    | None =>
      respond 400 (JObj [("error", JStr (lit "Invalid YouTube URL"))]%string)
    | Some videoId =>
      let (md, transcript) := fetchBoth env videoId in
      generate env b link videoId md transcript
    end.

Definition handler (env : Env) (ev : event) : response :=
  if eqb_str (httpMethod ev) (lit "OPTIONS") then respond 200 (JStr [])
  else if eqb_str (httpMethod ev) (lit "GET") then
    respond 200
      (JObj [("status", JStr (lit "OK"));
             ("message", JStr (lit "YouTube Summarizer API is running"));
             ("timestamp", JStr (now_toISOString env));
             ("geminiApiKeyExists", JBool (truthy_opt (GEMINI_API_KEY env)));
             ("youtubeApiKeyExists", JBool (truthy_opt (YOUTUBE_API_KEY env)));
             ("features", JArr [JStr (lit "Real video metadata");
                                JStr (lit "Video transcripts");
                                JStr (lit "AI analysis")])]%string)
  else if negb (eqb_str (httpMethod ev) (lit "POST")) then
    respond 405 (JObj [("error", JStr (lit "Method not allowed"))]%string)
  else
    match event_body ev with
    | inr msg => respond 500 (failure_body msg)
    | inl b => summarize env b
    end.

(** ** The persistent server ([server.js]) *)

Module Server.
(** What [res.status(..).json(..)] sends. *)
Record reply := { status : N; sent : json }.

(** [app.get('/health')] *)
Definition health (env : Env) : reply :=
  {| status := 200;
     sent :=
       JObj [("status", JStr (lit "OK"));
             ("message",
                JStr (lit "YouTube Summarizer Backend is running!"));
             ("timestamp", JStr (now_toISOString env));
             ("env",
                JObj [("gemini", JBool (truthy_opt (GEMINI_API_KEY env)));
                      ("youtube",
                         JBool (truthy_opt (YOUTUBE_API_KEY env)))])
            ]%string |}.

(** [!!v] for a value of the parsed body. *)
Definition truthy_value (v : json) : bool :=
  match v with
  | JUndefined | JNull => false
  | JBool b => b
  | JNum n => negb (n =? 0)
  | JStr s => truthy s
  | JArr _ | JObj _ => true
  end.

(** [v.k] for a value that is neither [undefined] nor [null]: the value of
    the property, [undefined] when there is none. *)
Definition prop (k : string) (v : json) : json :=
  match field k v with
  | Some x => x
  | None => JUndefined
  end.

(** [req.body] is [undefined] or [null]. *)
Definition nullish (v : json) : bool :=
  match v with
  | JUndefined | JNull => true
  | _ => false
  end.

(** The two places of the route that throw a [TypeError], each with the
    value it was applied to: the destructuring of [req.body], and
    [url.match] on a value that is not a string.  The text of the error
    is the engine's. *)
Inductive fault : Type :=
| CannotDestructure (v : json)
| MatchIsNotAFunction (v : json).

(** The [catch] of the route. *)
Definition failed (message : fault -> jsstring) (f : fault) : reply :=
  {| status := 500;
     sent := JObj [("error", JStr (lit "Failed to process request"));
                   ("details", JStr (message f))]%string |}.

(** [app.post('/summarize')] on [req.body] as [express.json()] leaves it;
    [message] gives the text of the errors of the engine. *)
Definition summarize (env : Env) (message : fault -> jsstring) (body : json)
  : reply :=
  if nullish body then failed message (CannotDestructure body)
  else
    let youtube_link := prop "youtube_link" body in
    let model := prop "model" body in
    if negb (truthy_value youtube_link) then
      {| status := 400;
         sent :=
           JObj [("error", JStr (lit "YouTube link is required"))]%string |}
    else
      match youtube_link with
      | JStr link =>
        match extractVideoId link with
        | None =>
          {| status := 400;
             sent :=
               JObj [("error", JStr (lit "Invalid YouTube URL"))]%string |}
        | Some videoId =>
          {| status := 200;
             sent :=
               JObj [("success", JBool true);
                     ("message",
                        JStr (lit "Backend is working! Video analysis will be added next."));
                     ("video_url", youtube_link);
                     ("video_id", JStr videoId);
                     ("model_used",
                        if truthy_value model then model
                        else JStr (lit "gemini-1.5-flash"));
                     ("timestamp", JStr (now_toISOString env))]%string |}
        end
      | _ => failed message (MatchIsNotAFunction youtube_link)
      end.

(** The body whose three fields are strings or absent, as the function
    variant reads them. *)
Definition body_of (b : request_body) : json :=
  JObj [("youtube_link", of_opt (youtube_link b));
        ("model", of_opt (model b));
        ("additional_prompt", of_opt (additional_prompt b))]%string.
End Server.

(** An environment with one service replaced. *)
Definition set_axios_get_videos (env : Env) f : Env :=
  {| GEMINI_API_KEY := GEMINI_API_KEY env;
     YOUTUBE_API_KEY := YOUTUBE_API_KEY env;
     axios_get_videos := f;
     fetchTranscript := fetchTranscript env;
     generateContent := generateContent env;
     now_toISOString := now_toISOString env;
     number_toLocaleString := number_toLocaleString env;
     date_toLocaleDateString := date_toLocaleDateString env |}.

Definition set_fetchTranscript (env : Env) f : Env :=
  {| GEMINI_API_KEY := GEMINI_API_KEY env;
     YOUTUBE_API_KEY := YOUTUBE_API_KEY env;
     axios_get_videos := axios_get_videos env;
     fetchTranscript := f;
     generateContent := generateContent env;
     now_toISOString := now_toISOString env;
     number_toLocaleString := number_toLocaleString env;
     date_toLocaleDateString := date_toLocaleDateString env |}.

Definition set_generateContent (env : Env) g : Env :=
  {| GEMINI_API_KEY := GEMINI_API_KEY env;
     YOUTUBE_API_KEY := YOUTUBE_API_KEY env;
     axios_get_videos := axios_get_videos env;
     fetchTranscript := fetchTranscript env;
     generateContent := g;
     now_toISOString := now_toISOString env;
     number_toLocaleString := number_toLocaleString env;
     date_toLocaleDateString := date_toLocaleDateString env |}.

(** A sample environment and request, for evaluation. *)
Definition sample_video : Api.video :=
  {| Api.v_snippet := Some
       {| Api.title := Some (lit "Sample");
          Api.description := Some (lit "About 1. things");
          Api.channelTitle := Some (lit "Channel");
          Api.publishedAt := Some (lit "2024-01-01T00:00:00Z");
          Api.tags := Some [lit "a"; lit "b"];
          Api.categoryId := Some (lit "22");
          Api.thumbnails := None |};
     Api.v_statistics := Some
       {| Api.viewCount := Some (lit "1234");
          Api.likeCount := Some (lit "12");
          Api.commentCount := Some (lit "3") |};
     Api.v_contentDetails := Some {| Api.duration := Some (lit "PT4M13S") |} |}.

Definition sample_env : Env :=
  {| GEMINI_API_KEY := Some (lit "g");
     YOUTUBE_API_KEY := Some (lit "y");
     axios_get_videos := fun _ _ => inl [sample_video];
     fetchTranscript := fun _ => inl [lit "hello"; lit "world"];
     generateContent := fun _ _ _ => inl (lit "Generated summary");
     now_toISOString := lit "2024-01-01T00:00:00.000Z";
     number_toLocaleString := fun x => x;
     date_toLocaleDateString := fun x => x |}.

Definition sample_request : request_body :=
  {| youtube_link := Some (lit "https://youtube.com/watch?v=dQw4w9WgXcQ");
     model := None;
     additional_prompt := None |}.

(** The texts of the two errors as Node prints them. *)
Definition node_messages (f : Server.fault) : jsstring :=
  match f with
  | Server.CannotDestructure _ =>
    lit "Cannot destructure property 'youtube_link' of 'req.body' as it is undefined."
  | Server.MatchIsNotAFunction _ => lit "url.match is not a function"
  end.

(** A body whose link is a number. *)
Definition numeric_link_body : json :=
  JObj [("youtube_link", JNum 123)]%string.

(** The sample environment with a metadata API that fails. *)
Definition metadata_failing_env : Env :=
  set_axios_get_videos sample_env (fun _ _ => inr (lit "Network Error")).

(** The sample environment with a video that has no caption fragment. *)
Definition empty_transcript_env : Env :=
  set_fetchTranscript sample_env (fun _ => inl []).

(** ** Notions used to state the properties *)

(** The URL shapes as the pattern of the source accepts them at the head
    of [s]: the dot of [youtu.be] stands for any character but a line
    terminator. *)
Definition shape_at (s : jsstring) : bool :=
  (starts_with (lit "youtu") s &&
   match skipn 5 s with
   | c :: t => dot c && starts_with (lit "be/") t
   | [] => false
   end)
  || starts_with (lit "v/") s
  || (starts_with (lit "u/") s &&
      match skipn 2 s with
      | c :: t => is_word c && starts_with (lit "/") t
      | [] => false
      end)
  || starts_with (lit "embed/") s
  || starts_with (lit "watch?v=") s
  || starts_with (lit "&v=") s.

(** The URL shapes as the specification lists them, as literal text. *)
Definition literal_shape_at (s : jsstring) : bool :=
  starts_with (lit "watch?v=") s
  || starts_with (lit "youtu.be/") s
  || starts_with (lit "embed/") s
  || starts_with (lit "v/") s
  || (starts_with (lit "u/") s &&
      match skipn 2 s with
      | c :: t => is_word c && starts_with (lit "/") t
      | [] => false
      end)
  || starts_with (lit "&v=") s.

(** [mk] is exactly one of the listed shapes. *)
Definition recognized (mk : jsstring) : bool :=
  eqb_str mk (lit "watch?v=") || eqb_str mk (lit "youtu.be/")
  || eqb_str mk (lit "embed/") || eqb_str mk (lit "v/")
  || match mk with
     | [u; s1; x; s2] => (u =? 117) && (s1 =? 47) && is_word x && (s2 =? 47)
     | _ => false
     end.

(** A digit directly followed by a period. *)
Definition digit_dot_at (s : jsstring) : bool :=
  match s with
  | c :: d :: _ => is_digit c && (d =? 46)
  | _ => false
  end.

(** A field of [analysis_quality] in a response body. *)
Definition quality (k : string) (b : json) : option json :=
  match field "analysis_quality" b with
  | Some q => field k q
  | None => None
  end.

(** A field of [video_metadata] in a response body. *)
Definition excerpt (k : string) (b : json) : option json :=
  match field "video_metadata" b with
  | Some q => field k q
  | None => None
  end.

(** The first [n] characters of [s], followed by [marker] when [s] is
    longer than [n]. *)
Definition truncated (n : N) (marker s : jsstring) : jsstring :=
  firstn (N.to_nat n) s ++ (if n <? len s then marker else []).

(** The three blocks of the prompt as the specification words them. *)
Definition spec_description_block (d : option jsstring) : jsstring :=
  match d with
  | Some (c :: r) => truncated 1000 (lit "...") (c :: r)
  | _ => lit "No description available"
  end.

Definition spec_tags_block (l : option (list jsstring)) : jsstring :=
  match l with
  | Some (t :: r) => lit "**🏷️ TAGS:** " ++ join (lit ", ") (firstn 10 (t :: r))
  | _ => []
  end.

Definition spec_transcript_block (t : option jsstring) : jsstring :=
  match t with
  | Some (c :: r) =>
    lit "**📝 VIDEO TRANSCRIPT:**" ++ [LF] ++
    truncated 6000 (lit "...(transcript continues)") (c :: r)
  | _ => lit "**📝 TRANSCRIPT:** Not available (video may not have captions)"
  end.

(** The handler calls the model under [modelName] with [prompt]: whatever
    the model is, the answer to body [b] is made of what the model returns
    for this name, this prompt and the settings of the name; its text
    becomes the summary of a 200 answer, its failure the 500 answer. *)
Definition prompt_sent (env : Env) (b : request_body)
           (modelName prompt : jsstring) : Prop :=
  forall g,
    match g modelName prompt (configFor modelName) with
    | inl text =>
      statusCode (summarize (set_generateContent env g) b) = 200 /\
      field "summary" (body (summarize (set_generateContent env g) b))
      = Some (JStr (if is_20 modelName then cleanFormatting text else text))
    | inr msg =>
      summarize (set_generateContent env g) b = respond 500 (failure_body msg)
    end.

(** Same status and same body. *)
Definition equivalent (r : response) (s : Server.reply) : Prop :=
  statusCode r = Server.status s /\ body r = Server.sent s.

(** The model call never fails. *)
Definition generation_succeeds (env : Env) : Prop :=
  forall modelName prompt config,
    exists text, generateContent env modelName prompt config = inl text.

(** The attempt of [re_video] at the start of the input, spelled out. *)
Definition video_tail (url : jsstring) : @cont (jsstring * captures) :=
  fun pre s caps =>
    m false
      (Seq (Grp 1 re_marker) (Seq (Grp 2 (Star not_delim)) (Star dot)))
      pre s caps (fun _ s' caps' => Some (consumed url s', caps')).

(** The texts whose absence the cleanup properties assume. *)
Definition QUAD : jsstring := [STAR; STAR; STAR; STAR].
Definition NL3 : jsstring := [LF; LF; LF].

(** A colon that ends a line, or that only white space follows up to the
    end of the text. *)
Definition colon_end_at (s : jsstring) : bool :=
  match s with
  | c :: rest => (c =? 58) && (at_eol true rest || forallb is_space rest)
  | [] => false
  end.

(** Where the cleanup passes act: a run of four asterisks, a run of three
    newlines, a digit directly followed by a period, a colon that ends a
    line or is followed by white space only. *)
Definition untouched (x : jsstring) : Prop :=
  includes QUAD x = false /\
  includes NL3 x = false /\
  anywhere digit_dot_at x = false /\
  anywhere colon_end_at x = false.

(** The first character of [s], if any, is not in the class [p]. *)
Definition head_fails (p : N -> bool) (s : jsstring) : Prop :=
  match s with
  | c :: _ => p c = false
  | [] => True
  end.

(** A test on the head of a text that stays true when [b] is appended. *)
Definition monotone_for (b : jsstring) (P : jsstring -> bool) : Prop :=
  forall y, P y = true -> P (y ++ b) = true.

(** The three transcript indicators of a response body. *)
Definition transcript_indicators (b : json) : option json * option json * option json :=
  (quality "has_transcript" b, quality "transcript_length" b,
   quality "content_richness" b).

(** Their values when no transcript is reported. *)
Definition no_transcript_indicators : option json * option json * option json :=
  (Some (JBool false), Some (JNum 0), Some (JStr (lit "Medium"))).

(** ** Notions used to state further properties *)

(** [mk] is, as a whole, one of the shapes the pattern accepts. *)
Definition shape_text (mk : jsstring) : bool :=
  match mk with
  | [c1; c2; c3; c4; c5; c; c6; c7; c8] =>
    eqb_str [c1; c2; c3; c4; c5] (lit "youtu") && dot c
    && eqb_str [c6; c7; c8] (lit "be/")
  | [u; s1; x; s2] => (u =? 117) && (s1 =? 47) && is_word x && (s2 =? 47)
  | _ => false
  end
  || eqb_str mk (lit "v/") || eqb_str mk (lit "embed/")
  || eqb_str mk (lit "watch?v=") || eqb_str mk (lit "&v=").

(** One component of a duration, [ds] followed by its unit letter, or
    nothing. *)
Definition component (o : option jsstring) (unit : N) : jsstring :=
  match o with Some ds => ds ++ [unit] | None => [] end.

(** [PT], then the hours, minutes and seconds that are present. *)
Definition iso_duration (h mi s : option jsstring) : jsstring :=
  lit "PT" ++ component h 72 ++ component mi 77 ++ component s 83.

(** A component that is present is a non-empty run of digits. *)
Definition digits (o : option jsstring) : bool :=
  match o with Some ds => truthy ds && forallb is_digit ds | None => true end.

Definition part (o : option jsstring) (unit : N) : list jsstring :=
  match o with Some ds => [ds ++ [unit]] | None => [] end.

(** The components that are present, with lower-case units, separated by
    single spaces. *)
Definition readable (h mi s : option jsstring) : jsstring :=
  join [32] (part h 104 ++ part mi 109 ++ part s 115).

(** The capture a component leaves in group [i]. *)
Definition optcap (i : nat) (o : option jsstring) (unit : N) : captures :=
  match o with Some ds => [(i, ds ++ [unit])] | None => [] end.

(** After its leading digits, [s] does not go on with [unit]. *)
Definition skip_ok (unit : N) (s : jsstring) : bool :=
  match dropWhile is_digit s with
  | c :: _ => negb (c =? unit)
  | [] => true
  end.

(** The number of newlines [x] starts with. *)
Definition lead (x : jsstring) : nat :=
  length (takeWhile (fun c => c =? LF) x).

(** A pattern without [^] and [$]. *)
Fixpoint anchor_free (r : regex) : bool :=
  match r with
  | Bol | Eol => false
  | Seq r1 r2 | Alt r1 r2 => anchor_free r1 && anchor_free r2
  | Opt r1 | Grp _ r1 => anchor_free r1
  | _ => true
  end.

(** A line that the header rule rewrites: it ends with a colon and has
    at least one character before it. *)
Definition is_header (L : jsstring) : bool :=
  match rev L with
  | c :: _ :: _ => c =? 58
  | _ => false
  end.

(** The line as the header rule leaves it. *)
Definition bold_line (L : jsstring) : jsstring :=
  if is_header L then [STAR; STAR] ++ L ++ [STAR; STAR] else L.

(** * Properties *)

(** ** The matcher *)

Section MatcherFacts.
Context {A : Type}.
Implicit Types (k : @cont A) (pre s : jsstring) (caps : captures).

Lemma m_str l : forall ml pre s caps k,
  m ml (str l) pre s caps k =
  if starts_with l s
  then k (rev l ++ pre) (skipn (length l) s) caps
  else None.
Proof.
  induction l as [|c l IH]; intros ml pre s caps k; simpl.
  - reflexivity.
  - destruct s as [|x t]; [reflexivity|].
    rewrite (N.eqb_sym c x).
    destruct (N.eqb_spec x c) as [->|Hne]; simpl; [|reflexivity].
    rewrite IH. rewrite <- app_assoc. reflexivity.
Qed.

(** A greedy star hands over at the end of the longest run whenever the
    continuation accepts there. *)
Lemma star_greedy p : forall s pre caps k x,
  k (rev (takeWhile p s) ++ pre) (dropWhile p s) caps = Some x ->
  star p pre s caps k = Some x.
Proof.
  induction s as [|c t IH]; intros pre caps k x H; simpl in *.
  - exact H.
  - destruct (p c); simpl in H; [|exact H].
    rewrite <- app_assoc in H. simpl in H.
    rewrite (IH _ _ _ _ H). reflexivity.
Qed.

(** A star fails when the continuation fails at every position of the
    run. *)
Lemma star_none p : forall s pre caps k,
  (forall w s', s = w ++ s' -> forallb p w = true ->
                k (rev w ++ pre) s' caps = None) ->
  star p pre s caps k = None.
Proof.
  induction s as [|c t IH]; intros pre caps k H; simpl.
  - apply (H [] []); reflexivity.
  - destruct (p c) eqn:Hc.
    + rewrite IH.
      * apply (H [] (c :: t)); reflexivity.
      * intros w s' -> Hw.
        specialize (H (c :: w) s' eq_refl). simpl in H.
        rewrite Hc, Hw in H. rewrite <- app_assoc in H. apply H. reflexivity.
    + apply (H [] (c :: t)); reflexivity.
Qed.

(** A star whose continuation accepts after [w] and nowhere later
    hands over after [w]. *)
Lemma star_last p : forall w s' pre caps k x,
  forallb p w = true ->
  k (rev w ++ pre) s' caps = Some x ->
  (forall w2 s2, s' = w2 ++ s2 -> w2 <> [] -> forallb p w2 = true ->
                 k (rev w2 ++ rev w ++ pre) s2 caps = None) ->
  star p pre (w ++ s') caps k = Some x.
Proof.
  induction w as [|c w IH]; intros s' pre caps k x Hw Hk Hlater; simpl in *.
  - destruct s' as [|c t]; simpl; [exact Hk|].
    destruct (p c) eqn:Hc; [|exact Hk].
    rewrite star_none; [exact Hk|].
    intros w2 s2 -> Hw2.
    specialize (Hlater (c :: w2) s2 eq_refl). simpl in Hlater.
    rewrite Hc, Hw2 in Hlater. rewrite <- app_assoc in Hlater.
    apply Hlater; [discriminate|reflexivity].
  - apply andb_prop in Hw. destruct Hw as [Hc Hw]. rewrite Hc.
    rewrite <- app_assoc in Hk. simpl in Hk.
    rewrite (IH s' (c :: pre) caps k x Hw Hk); [reflexivity|].
    intros w2 s2 E Hne Hw2.
    specialize (Hlater w2 s2 E Hne Hw2).
    rewrite <- app_assoc in Hlater. exact Hlater.
Qed.
End MatcherFacts.

(** The equations of the matcher, one per construct. *)
Lemma m_seq {A} ml r1 r2 pre s caps (k : @cont A) :
  m ml (Seq r1 r2) pre s caps k =
  m ml r1 pre s caps (fun pre' s' caps' => m ml r2 pre' s' caps' k).
Proof. reflexivity. Qed.

Lemma m_bol {A} ml pre s caps (k : @cont A) :
  m ml Bol pre s caps k = if at_bol ml pre then k pre s caps else None.
Proof. reflexivity. Qed.

Lemma m_grp {A} ml i r pre s caps (k : @cont A) :
  m ml (Grp i r) pre s caps k =
  m ml r pre s caps
    (fun pre' s' caps' => k pre' s' ((i, consumed s s') :: caps')).
Proof. reflexivity. Qed.

Lemma m_plus {A} ml p pre s caps (k : @cont A) :
  m ml (AtLeast 1 p) pre s caps k =
  match s with
  | c :: t => if p c then star p (c :: pre) t caps k else None
  | [] => None
  end.
Proof. reflexivity. Qed.

Lemma m_chr_none {A} ml c r pre s caps (k : @cont A) :
  starts_with [c] s = false -> m ml (Seq (Chr c) r) pre s caps k = None.
Proof.
  intros H. cbn [m]. destruct s as [|x t]; [reflexivity|].
  simpl in H. rewrite andb_true_r, N.eqb_sym in H. rewrite H. reflexivity.
Qed.


(** ** Facts on strings *)

Lemma take_drop_while p (s : jsstring) :
  takeWhile p s ++ dropWhile p s = s.
Proof.
  induction s as [|c t IH]; simpl; [reflexivity|].
  destruct (p c); simpl; [rewrite IH|]; reflexivity.
Qed.

Lemma consumed_app (w s' : jsstring) : consumed (w ++ s') s' = w.
Proof.
  unfold consumed. rewrite length_app.
  replace (length w + length s' - length s')%nat with (length w) by lia.
  rewrite firstn_app, firstn_all, Nat.sub_diag. simpl. apply app_nil_r.
Qed.

Lemma anywhere_suffix P (a s : jsstring) :
  anywhere P (a ++ s) = false -> P s = false.
Proof.
  induction a as [|c a IH]; simpl; intros H.
  - destruct s; simpl in H; apply orb_false_iff in H; tauto.
  - apply orb_false_iff in H. tauto.
Qed.

Lemma eqb_str_true (a b : jsstring) : eqb_str a b = true -> a = b.
Proof.
  unfold eqb_str. destruct (list_eq_dec N.eq_dec a b); [auto|discriminate].
Qed.

(** ** The URL parser *)

(* the branch of the [u/\w/] shape *)
Ltac fin_u :=
  match goal with
  | H0 : (starts_with (lit "u/") ?s && _) = false |- _ =>
    destruct (starts_with (lit "u/") s); [|reflexivity];
    cbn [andb] in H0;
    destruct (skipn 2 s) as [|x' t']; [reflexivity|];
    destruct (is_word x'); cbn [andb] in H0; [|reflexivity];
    destruct t' as [|y' t']; [reflexivity|];
    change (lit "/") with [47] in H0; cbn [starts_with] in H0;
    rewrite andb_true_r in H0; rewrite (N.eqb_sym y' 47), H0; reflexivity
  end.

Section VideoPattern.
Context {A : Type}.
Implicit Types (k : @cont A).

(** Where the pattern of the source recognizes no shape, group 1 fails. *)
Lemma marker_none s : forall pre caps k,
  shape_at s = false -> m false re_marker pre s caps k = None.
Proof.
  intros pre caps k H. unfold shape_at in H.
  repeat (apply orb_false_iff in H; destruct H as [H ?]).
  unfold re_marker. cbn [m]. rewrite !m_str.
  change (length (lit "youtu")) with 5%nat.
  change (length (lit "u/")) with 2%nat.
  repeat match goal with
         | E : starts_with _ s = false |- _ => rewrite E; clear E
         end.
  destruct (starts_with (lit "youtu") s).
  - cbn [andb] in H.
    destruct (skipn 5 s) as [|x t]; [fin_u|].
    destruct (dot x); cbn [andb] in H; [|fin_u].
    rewrite m_str, H. fin_u.
  - fin_u.
Qed.

(** On one of the listed shapes group 1 consumes exactly the shape. *)
Lemma marker_some mk after : forall pre caps k,
  recognized mk = true ->
  m false re_marker pre (mk ++ after) caps k = k (rev mk ++ pre) after caps.
Proof.
  intros pre caps k H. unfold recognized in H.
  repeat (apply orb_true_iff in H; destruct H as [H|H]);
    try (apply eqb_str_true in H; subst mk; vm_compute;
         match goal with |- context [k ?a ?b ?c] => destruct (k a b c) end;
         reflexivity).
  destruct mk as [|u [|s1 [|x [|s2 [|? ?]]]]]; try discriminate.
  apply andb_true_iff in H. destruct H as [H Hs2].
  apply andb_true_iff in H. destruct H as [H Hx].
  apply andb_true_iff in H. destruct H as [Hu Hs1].
  apply N.eqb_eq in Hu, Hs1, Hs2. subst.
  unfold re_marker. cbn. rewrite Hx.
  match goal with |- context [k ?a ?b ?c] => destruct (k a b c) end;
  reflexivity.
Qed.
End VideoPattern.

Lemma exec_video url :
  exec false re_video [] url = star dot [] url [] (video_tail url).
Proof. reflexivity. Qed.

Lemma js_match_video_some url x :
  star dot [] url [] (video_tail url) = Some x ->
  js_match false re_video url = Some x.
Proof.
  intros H. rewrite <- exec_video in H. unfold js_match.
  destruct url; cbn [search]; rewrite H; reflexivity.
Qed.

Lemma video_tail_none url pre s caps :
  shape_at s = false -> video_tail url pre s caps = None.
Proof.
  intros H. unfold video_tail. cbn [m]. apply marker_none, H.
Qed.

Lemma video_tail_some url mk after pre caps :
  recognized mk = true ->
  exists whole,
    video_tail url pre (mk ++ after) caps =
    Some (whole, (2%nat, takeWhile not_delim after) :: (1%nat, mk) :: caps).
Proof.
  intros H. unfold video_tail. cbn [m].
  rewrite (marker_some mk after _ _ _ H).
  eexists. apply star_greedy. apply star_greedy.
  rewrite consumed_app.
  rewrite <- (take_drop_while not_delim after) at 2.
  rewrite consumed_app. reflexivity.
Qed.

(** C6 (amended).  A URL made of a prefix without line terminator, one of
    the listed shapes and a rest whose token, taken up to the first [#],
    [&] or [?], has 11 characters, and in which the pattern finds no shape
    at any later position, is parsed to exactly that token. *)
Theorem C6_extractVideoId_last_shape :
  forall pre mk after,
    recognized mk = true ->
    forallb dot pre = true ->
    anywhere shape_at (tl (mk ++ after)) = false ->
    len (takeWhile not_delim after) = 11 ->
    extractVideoId (pre ++ mk ++ after) = Some (takeWhile not_delim after).
Proof.
  intros pre mk after Hmk Hpre Hlast Hlen.
  set (url := pre ++ mk ++ after).
  destruct (video_tail_some url mk after (rev pre ++ []) [] Hmk)
    as [whole Hk].
  assert (Hstar : star dot [] url [] (video_tail url) =
                  Some (whole, [(2%nat, takeWhile not_delim after);
                                (1%nat, mk)])).
  { unfold url. apply star_last; [exact Hpre|exact Hk|].
    intros w2 s2 E Hne _. apply video_tail_none.
    destruct w2 as [|c w2]; [contradiction|].
    rewrite E in Hlast. simpl in Hlast.
    apply (anywhere_suffix _ _ _ Hlast). }
  unfold extractVideoId.
  rewrite (js_match_video_some _ _ Hstar). cbn [cap Nat.eqb].
  rewrite Hlen. reflexivity.
Qed.

Lemma C6_extractVideoId_last_shape_witness :
  recognized (lit "youtu.be/") = true /\
  forallb dot (lit "https://") = true /\
  anywhere shape_at (tl (lit "youtu.be/" ++ lit "dQw4w9WgXcQ?t=1")) = false /\
  len (takeWhile not_delim (lit "dQw4w9WgXcQ?t=1")) = 11 /\
  extractVideoId (lit "https://" ++ lit "youtu.be/" ++ lit "dQw4w9WgXcQ?t=1")
  = Some (takeWhile not_delim (lit "dQw4w9WgXcQ?t=1")).
Proof.
  split; [|split; [|split; [|split]]];
    [reflexivity|reflexivity|reflexivity|reflexivity|].
  apply C6_extractVideoId_last_shape; reflexivity.
Defined.

(** C6 as stated fails: the URL below has the shape [watch?v=] followed by
    an 11-character token that ends at [&], and the parser returns nothing,
    because the pattern settles on the last shape, [&v=]. *)
Lemma C6_counterexample :
  recognized (lit "watch?v=") = true /\
  takeWhile not_delim (lit "dQw4w9WgXcQ&v=abc") = lit "dQw4w9WgXcQ" /\
  len (lit "dQw4w9WgXcQ") = 11 /\
  extractVideoId
    (lit "https://www.youtube.com/" ++ lit "watch?v=" ++
     lit "dQw4w9WgXcQ&v=abc") = None.
Proof. repeat split; vm_compute; reflexivity. Qed.

(** A line terminator before the shape has the same effect. *)
Example extractVideoId_after_newline :
  extractVideoId ([LF] ++ lit "https://youtu.be/dQw4w9WgXcQ") = None.
Proof. vm_compute. reflexivity. Qed.

(** *** Identifiers come from a shape of the pattern only *)

Lemma search_some ml r : forall s pre x,
  search ml r pre s = Some x ->
  exists a s', s = a ++ s' /\ exec ml r (rev a ++ pre) s' = Some x.
Proof.
  induction s as [|c t IH]; intros pre x H; cbn [search] in H.
  - exists [], []. split; [reflexivity|]. simpl.
    destruct (exec ml r pre []); [exact H|discriminate].
  - destruct (exec ml r pre (c :: t)) eqn:E.
    + exists [], (c :: t). split; [reflexivity|]. rewrite <- H. exact E.
    + destruct (IH _ _ H) as (a & s' & -> & Hx).
      exists (c :: a), s'. split; [reflexivity|].
      simpl. rewrite <- app_assoc. exact Hx.
Qed.

Lemma star_some {A} p : forall s pre caps (k : @cont A) x,
  star p pre s caps k = Some x ->
  exists w s', s = w ++ s' /\ k (rev w ++ pre) s' caps = Some x.
Proof.
  induction s as [|c t IH]; intros pre caps k x H; cbn [star] in H.
  - exists [], []. auto.
  - destruct (p c).
    + destruct (star p (c :: pre) t caps k) eqn:E.
      * destruct (IH _ _ _ _ E) as (w & s' & -> & Hk).
        exists (c :: w), s'. split; [reflexivity|].
        simpl. rewrite <- app_assoc. simpl. congruence.
      * exists [], (c :: t). auto.
    + exists [], (c :: t). auto.
Qed.

Lemma anywhere_found P (a s : jsstring) :
  P s = true -> anywhere P (a ++ s) = true.
Proof.
  intros H. induction a as [|c a IH]; simpl.
  - destruct s; simpl; rewrite H; reflexivity.
  - rewrite IH. apply orb_true_r.
Qed.

(** Whatever the parser returns has 11 characters and was found behind a
    shape of the pattern (with its wildcard dot). *)
Lemma extractVideoId_sound url tok :
  extractVideoId url = Some tok ->
  len tok = 11 /\ anywhere shape_at url = true.
Proof.
  unfold extractVideoId, js_match. intros H.
  destruct (search false re_video [] url) as [[whole caps]|] eqn:Es;
    [|discriminate].
  split.
  - destruct (cap 2 caps) as [g2|]; [|discriminate].
    destruct (N.eqb_spec (len g2) 11); congruence.
  - clear H. apply search_some in Es.
    destruct Es as (a & s' & -> & He).
    unfold exec, re_video in He. rewrite m_seq, m_bol in He.
    destruct (at_bol false (rev a ++ [])); [|discriminate].
    rewrite m_seq in He. apply star_some in He.
    destruct He as (w & s'' & -> & Hk).
    rewrite app_assoc. apply anywhere_found.
    destruct (shape_at s'') eqn:Esh; [reflexivity|].
    rewrite m_seq, m_grp in Hk. rewrite marker_none in Hk by exact Esh.
    discriminate.
Qed.

(** C5 (code at the failing input).  The dot of [youtu.be] is a wildcard in
    the pattern: the URL below contains none of the listed shapes and is
    still parsed to an identifier. *)
Theorem C5_unlisted_shape_yields_identifier :
  anywhere literal_shape_at (lit "https://youtuXbe/dQw4w9WgXcQ") = false /\
  extractVideoId (lit "https://youtuXbe/dQw4w9WgXcQ")
  = Some (lit "dQw4w9WgXcQ").
Proof. split; vm_compute; reflexivity. Qed.

(** ** The duration formatter *)

Lemma m_opt_some {A} ml r pre s caps (k : @cont A) :
  (exists x, k pre s caps = Some x) ->
  exists x, m ml (Opt r) pre s caps k = Some x.
Proof.
  intros [x Hx]. cbn [m].
  destruct (m ml r pre s caps k) as [y|]; [exists y|exists x]; auto.
Qed.

Lemma search_none_iff ml r (P : jsstring -> bool) :
  (forall pre s, exec ml r pre s = None <-> P s = false) ->
  forall s pre, search ml r pre s = None <-> anywhere P s = false.
Proof.
  intros Hexec. induction s as [|c t IH]; intros pre; cbn [search anywhere].
  - rewrite orb_false_r, <- (Hexec pre []).
    destruct (exec ml r pre []); split; congruence.
  - rewrite orb_false_iff, <- (Hexec pre (c :: t)), <- (IH (c :: pre)).
    destruct (exec ml r pre (c :: t)); split; try tauto; try congruence.
Qed.

(** Three optional groups in a row never fail. *)
Lemma m_opt3_some {A} ml r1 r2 r3 pre s caps (k : @cont A) :
  (forall pre' s' caps', exists x, k pre' s' caps' = Some x) ->
  exists x,
    m ml (Seq (Opt r1) (Seq (Opt r2) (Opt r3))) pre s caps k = Some x.
Proof.
  intros Hk. rewrite m_seq. apply m_opt_some.
  rewrite m_seq. apply m_opt_some. apply m_opt_some. apply Hk.
Qed.

Lemma exec_duration_none pre s :
  exec false re_duration pre s = None <-> starts_with (lit "PT") s = false.
Proof.
  unfold exec, re_duration. rewrite m_seq, m_str.
  destruct (starts_with (lit "PT") s); split; try congruence.
  intros H. exfalso.
  match type of H with ?t = None => assert (E : exists x, t = Some x) end.
  { apply m_opt3_some. eauto. }
  destruct E as [x E]. congruence.
Qed.

(** The pattern of the source is not anchored: it matches exactly the
    strings that contain [PT]. *)
Lemma duration_shape d :
  js_match false re_duration d = None <-> includes (lit "PT") d = false.
Proof. apply search_none_iff, exec_duration_none. Qed.

(** C7 (amended).  The three examples hold; the empty string, like an
    absent input, gives [Unknown]; every non-empty string that the pattern
    does not match (one without [PT]) is returned unchanged. *)
Theorem C7_formatDuration :
  formatDuration (Some (lit "PT4M13S")) = lit "4m 13s" /\
  formatDuration (Some (lit "PT1H2M")) = lit "1h 2m" /\
  formatDuration None = lit "Unknown" /\
  formatDuration (Some []) = lit "Unknown" /\
  (forall d, d <> [] -> includes (lit "PT") d = false ->
             js_match false re_duration d = None /\
             formatDuration (Some d) = d).
Proof.
  split; [|split; [|split; [|split]]]; try (vm_compute; reflexivity).
  intros d Hne Hpt. apply duration_shape in Hpt. split; [exact Hpt|].
  unfold formatDuration.
  destruct d; [contradiction|]. cbn [truthy negb]. rewrite Hpt. reflexivity.
Qed.

Lemma C7_formatDuration_witness :
  lit "4:13" <> [] /\ includes (lit "PT") (lit "4:13") = false /\
  formatDuration (Some (lit "4:13")) = lit "4:13".
Proof.
  split; [discriminate|]. split; [reflexivity|].
  apply (proj2 (proj2 (proj2 (proj2 C7_formatDuration)))).
  - discriminate.
  - reflexivity.
Defined.

(** C7 as stated fails on the empty string: it is a string, the pattern
    does not match it, and it is not returned unchanged. *)
Lemma C7_counterexample :
  js_match false re_duration [] = None /\
  formatDuration (Some []) <> [].
Proof. split; [reflexivity|discriminate]. Qed.

(** A matching string without any component is returned unchanged too. *)
Example formatDuration_PT : formatDuration (Some (lit "PT")) = lit "PT".
Proof. vm_compute. reflexivity. Qed.

(** The pattern is found anywhere in the string. *)
Example formatDuration_inside :
  formatDuration (Some (lit "xPT5Mfoo")) = lit "5m".
Proof. vm_compute. reflexivity. Qed.

(** ** The formatting cleanup *)

Lemma anywhere_tail P c (t : jsstring) :
  anywhere P (c :: t) = false -> anywhere P t = false.
Proof. simpl. intros H. apply orb_false_iff in H. tauto. Qed.

Lemma anywhere_head P (s : jsstring) : anywhere P s = false -> P s = false.
Proof. apply (anywhere_suffix P []). Qed.

(** A global replacement whose pattern matches nowhere changes nothing. *)
Lemma replace_g_id ml r f (P : jsstring -> bool) :
  (forall pre s, anywhere P s = false -> exec ml r pre s = None) ->
  forall s pre, anywhere P s = false -> replace_g ml r f pre s O = s.
Proof.
  intros Hexec. induction s as [|c t IH]; intros pre H; cbn [replace_g];
    rewrite (Hexec pre _ H); [reflexivity|].
  rewrite (IH (c :: pre) (anywhere_tail _ _ _ H)). reflexivity.
Qed.

Lemma fixQuadAsterisks_id x :
  includes QUAD x = false -> fixQuadAsterisks x = x.
Proof.
  apply replace_g_id. intros pre s H. apply anywhere_head in H.
  unfold exec, re_quad. rewrite m_str. fold QUAD. rewrite H. reflexivity.
Qed.

Lemma digit_run_not_dotted w : forall c s',
  forallb is_digit (c :: w) = true ->
  anywhere digit_dot_at (c :: w ++ s') = false ->
  starts_with [46] s' = false.
Proof.
  induction w as [|d w IH]; intros c s' Hd H.
  - apply anywhere_head in H. cbn [forallb] in Hd.
    rewrite andb_true_r in Hd.
    destruct s' as [|y t]; [reflexivity|].
    cbn [app digit_dot_at] in H. rewrite Hd in H. cbn [andb] in H.
    cbn [starts_with]. rewrite andb_true_r, N.eqb_sym. exact H.
  - apply (IH d s').
    + simpl in Hd. apply andb_prop in Hd. tauto.
    + apply (anywhere_tail _ c). exact H.
Qed.

Lemma formatNumberedLists_id x :
  anywhere digit_dot_at x = false -> formatNumberedLists x = x.
Proof.
  apply replace_g_id. intros pre s H.
  unfold exec, re_numbered. rewrite m_seq, m_grp, m_plus.
  destruct s as [|c t]; [reflexivity|].
  destruct (is_digit c) eqn:Hc; [|reflexivity].
  apply star_none. intros w s' -> Hw.
  apply m_chr_none. apply (digit_run_not_dotted w c).
  - simpl. rewrite Hc, Hw. reflexivity.
  - exact H.
Qed.

Lemma cleanNewlines_id x : includes NL3 x = false -> cleanNewlines x = x.
Proof.
  apply replace_g_id. intros pre s H. apply anywhere_head in H.
  unfold exec, re_newlines. cbn [atleast m].
  unfold NL3 in H. cbn [starts_with] in H.
  destruct s as [|a s]; [reflexivity|].
  rewrite (N.eqb_sym a LF). destruct (LF =? a); [|reflexivity].
  destruct s as [|b s]; [reflexivity|].
  rewrite (N.eqb_sym b LF). destruct (LF =? b); [|reflexivity].
  destruct s as [|c s]; [reflexivity|].
  rewrite (N.eqb_sym c LF). cbn [andb] in H.
  rewrite andb_true_r in H. rewrite H. reflexivity.
Qed.

Lemma m_colon_eol_none {A} pre s caps (k : @cont A) :
  colon_end_at s = false -> m true (Seq (Chr 58) Eol) pre s caps k = None.
Proof.
  intros H. cbn [m]. destruct s as [|c rest]; [reflexivity|].
  cbn [colon_end_at] in H. destruct (c =? 58); [|reflexivity].
  cbn [andb] in H. apply orb_false_iff in H. destruct H as [-> _].
  reflexivity.
Qed.

Lemma boldHeaders_id x :
  anywhere colon_end_at x = false -> boldHeaders x = x.
Proof.
  apply replace_g_id. intros pre s H.
  unfold exec, re_header. rewrite m_seq, m_bol.
  destruct (at_bol true pre); [|reflexivity].
  rewrite m_seq, m_grp, m_plus.
  destruct s as [|c t]; [reflexivity|].
  destruct (dot c); [|reflexivity].
  apply star_none. intros w s' -> _.
  apply m_colon_eol_none.
  apply (anywhere_suffix _ (c :: w)). exact H.
Qed.

(** Without any of the four patterns the cleanup only trims. *)
Lemma cleanFormatting_plain x :
  includes QUAD x = false -> includes NL3 x = false ->
  anywhere digit_dot_at x = false -> anywhere colon_end_at x = false ->
  cleanFormatting x = trim x.
Proof.
  intros H1 H3 H2 H4. unfold cleanFormatting.
  rewrite (fixQuadAsterisks_id x H1), (formatNumberedLists_id x H2),
    (cleanNewlines_id x H3), (boldHeaders_id x H4).
  reflexivity.
Qed.

(** *** Trimming *)

Lemma dropWhile_head p s : head_fails p (dropWhile p s).
Proof.
  induction s as [|c t IH]; simpl; [exact I|].
  destruct (p c) eqn:E; [exact IH|exact E].
Qed.

Lemma dropWhile_fix p s : head_fails p s -> dropWhile p s = s.
Proof. destruct s as [|c t]; simpl; [reflexivity|]. intros ->. reflexivity. Qed.

Lemma head_fails_prefix p (a b : jsstring) :
  head_fails p (a ++ b) -> head_fails p a.
Proof. destruct a; simpl; auto. Qed.

Lemma forallb_takeWhile p (s : jsstring) : forallb p (takeWhile p s) = true.
Proof.
  induction s as [|c t IH]; simpl; [reflexivity|].
  destruct (p c) eqn:E; simpl; [rewrite E, IH|]; reflexivity.
Qed.

Lemma forallb_rev_true p (s : jsstring) :
  forallb p s = true -> forallb p (rev s) = true.
Proof.
  rewrite !forallb_forall. intros H c Hc. apply H, in_rev, Hc.
Qed.

(** The trimmed text and what was cut on either side. *)
Lemma trim_split x :
  exists a b, x = a ++ trim x ++ b /\
              forallb is_space b = true /\
              dropWhile is_space x = trim x ++ b /\
              rev (trim x) = dropWhile is_space (rev (dropWhile is_space x)).
Proof.
  unfold trim. set (y := dropWhile is_space x).
  set (z := dropWhile is_space (rev y)).
  exists (takeWhile is_space x), (rev (takeWhile is_space (rev y))).
  assert (Hy : y = rev z ++ rev (takeWhile is_space (rev y))).
  { rewrite <- rev_app_distr. unfold z. rewrite take_drop_while.
    symmetry. apply rev_involutive. }
  repeat split.
  - rewrite <- Hy. unfold y. symmetry. apply take_drop_while.
  - apply forallb_rev_true, forallb_takeWhile.
  - exact Hy.
  - apply rev_involutive.
Qed.

Lemma trim_idem x : trim (trim x) = trim x.
Proof.
  destruct (trim_split x) as (a & b & _ & _ & Hy & Hz).
  unfold trim at 1.
  assert (E1 : dropWhile is_space (trim x) = trim x).
  { apply dropWhile_fix. apply (head_fails_prefix _ _ b).
    rewrite <- Hy. apply dropWhile_head. }
  rewrite E1.
  assert (E2 : dropWhile is_space (rev (trim x)) = rev (trim x)).
  { apply dropWhile_fix. rewrite Hz. apply dropWhile_head. }
  rewrite E2. apply rev_involutive.
Qed.

(** *** Patterns absent from a text are absent from its parts *)

Lemma starts_with_monotone pat b : monotone_for b (starts_with pat).
Proof.
  induction pat as [|c pat IH]; intros y H; [reflexivity|].
  destruct y as [|d y]; [discriminate|]. cbn [starts_with app] in *.
  apply andb_prop in H. destruct H as [-> H]. apply (IH _ H).
Qed.

Lemma digit_dot_monotone b : monotone_for b digit_dot_at.
Proof. intros [|c [|d y]] H; try discriminate. exact H. Qed.

Lemma colon_end_monotone b :
  forallb is_space b = true -> monotone_for b colon_end_at.
Proof.
  intros Hb [|c rest] H; [discriminate|].
  cbn [colon_end_at app] in *.
  apply andb_prop in H. destruct H as [-> H]. cbn [andb].
  apply orb_true_iff in H. apply orb_true_iff.
  destruct rest as [|d rest].
  - right. exact Hb.
  - destruct H as [H|H]; [left; exact H|right].
    rewrite forallb_app, H, Hb. reflexivity.
Qed.

Lemma anywhere_prefix P (y b : jsstring) :
  monotone_for b P -> anywhere P (y ++ b) = false -> anywhere P y = false.
Proof.
  intros HP. induction y as [|c t IH]; intros H.
  - apply anywhere_head in H. cbn [anywhere]. rewrite orb_false_r.
    destruct (P []) eqn:E; [|reflexivity].
    apply HP in E. congruence.
  - cbn [anywhere]. apply orb_false_iff. split.
    + apply anywhere_head in H. destruct (P (c :: t)) eqn:E; [|reflexivity].
      apply HP in E. congruence.
    + apply IH. apply (anywhere_tail _ c). exact H.
Qed.

Lemma anywhere_drop P (a s : jsstring) :
  anywhere P (a ++ s) = false -> anywhere P s = false.
Proof.
  induction a as [|c a IH]; intros H; [exact H|].
  apply IH. apply (anywhere_tail _ c). exact H.
Qed.

(** A pattern absent from a text is absent from the trimmed text. *)
Lemma anywhere_trim P x :
  (forall b, forallb is_space b = true -> monotone_for b P) ->
  anywhere P x = false -> anywhere P (trim x) = false.
Proof.
  intros HP H. destruct (trim_split x) as (a & b & E & Hb & _).
  rewrite E in H. apply anywhere_drop in H.
  apply (anywhere_prefix P _ b (HP b Hb) H).
Qed.

Lemma untouched_trim x : untouched x -> untouched (trim x).
Proof.
  intros (H1 & H3 & H2 & H4). repeat split.
  - apply anywhere_trim; [intros; apply starts_with_monotone|exact H1].
  - apply anywhere_trim; [intros; apply starts_with_monotone|exact H3].
  - apply anywhere_trim; [intros; apply digit_dot_monotone|exact H2].
  - apply anywhere_trim; [apply colon_end_monotone|exact H4].
Qed.

(** C3 (amended).  A second pass changes nothing whenever the result of
    the first pass holds no run of four asterisks, no run of three
    newlines, no digit directly followed by a period and no colon that ends
    a line.  This is the case whenever the input itself holds none of
    these and no colon followed by white space only; the first pass then
    only trims. *)
Theorem C3_cleanFormatting_second_pass :
  (forall x, untouched (cleanFormatting x) ->
             cleanFormatting (cleanFormatting x) = cleanFormatting x) /\
  (forall x, untouched x ->
             cleanFormatting x = trim x /\ untouched (cleanFormatting x)).
Proof.
  split.
  - intros x (H1 & H3 & H2 & H4).
    rewrite (cleanFormatting_plain _ H1 H3 H2 H4).
    unfold cleanFormatting. apply trim_idem.
  - intros x H.
    assert (E : cleanFormatting x = trim x)
      by (destruct H as (H1 & H3 & H2 & H4);
          apply cleanFormatting_plain; assumption).
    split; [exact E|]. rewrite E. apply untouched_trim, H.
Qed.

Lemma C3_cleanFormatting_second_pass_witness :
  (untouched (cleanFormatting (lit "Key points:" ++ [LF] ++ lit "first")) /\
   cleanFormatting
     (cleanFormatting (lit "Key points:" ++ [LF] ++ lit "first"))
   = cleanFormatting (lit "Key points:" ++ [LF] ++ lit "first")) /\
  (untouched (lit "  Note: step 3 of **bold** text. ") /\
   cleanFormatting (lit "  Note: step 3 of **bold** text. ")
   = trim (lit "  Note: step 3 of **bold** text. ")).
Proof.
  assert (H1 : untouched
                 (cleanFormatting (lit "Key points:" ++ [LF] ++ lit "first")))
    by (repeat split; reflexivity).
  assert (H2 : untouched (lit "  Note: step 3 of **bold** text. "))
    by (repeat split; reflexivity).
  split; split.
  - exact H1.
  - apply (proj1 C3_cleanFormatting_second_pass _ H1).
  - exact H2.
  - apply (proj2 C3_cleanFormatting_second_pass _ H2).
Defined.

(** C3 as stated fails.  [a: ] (with a trailing space) has neither four
    asterisks nor three newlines; the first pass trims it to a line ending
    in a colon, which the second pass makes bold.  [1. a] fails as well:
    the first pass leaves [**1.** a], in which the second pass finds the
    numbered-list pattern again. *)
Lemma C3_counterexample :
  (includes QUAD (lit "a: ") = false /\
   includes NL3 (lit "a: ") = false /\
   cleanFormatting (lit "a: ") = lit "a:" /\
   cleanFormatting (cleanFormatting (lit "a: ")) = lit "**a:**") /\
  (includes QUAD (lit "1. a") = false /\
   includes NL3 (lit "1. a") = false /\
   cleanFormatting (lit "1. a") = lit "**1.** a" /\
   cleanFormatting (cleanFormatting (lit "1. a"))
   = lit "**" ++ [LF; LF] ++ lit "**1.** ** a").
Proof. repeat split; vm_compute; reflexivity. Qed.

(** A header line is made bold once: the second pass leaves it alone. *)
Example cleanFormatting_twice_on_header :
  cleanFormatting (lit "Key points:" ++ [LF] ++ lit "first")
  = lit "**Key points:**" ++ [LF] ++ lit "first".
Proof. vm_compute. reflexivity. Qed.

(** A header line that starts with two asterisks: the first pass creates
    the run of four that the second pass collapses. *)
Example cleanFormatting_twice_on_bold_header :
  cleanFormatting (lit "**a:") = lit "****a:**" /\
  cleanFormatting (cleanFormatting (lit "**a:")) = lit "**a:**".
Proof. split; vm_compute; reflexivity. Qed.

(** C4 (code at the failing input).  The numbered-list pattern is not
    anchored at the beginning of a line: a digit sequence followed by a
    period in the middle of a line is rewritten. *)
Theorem C4_digit_period_inside_a_line_is_rewritten :
  formatNumberedLists (lit "Pi is 3.14")
  = lit "Pi is " ++ [LF; LF] ++ lit "**3.** 14" /\
  formatNumberedLists (lit "Pi is 3.14") <> lit "Pi is 3.14".
Proof. split; [vm_compute; reflexivity|vm_compute; discriminate]. Qed.

(** At the beginning of a line the rule does what it is meant to do. *)
Example formatNumberedLists_list :
  formatNumberedLists (lit "1. one" ++ [LF] ++ lit "2. two")
  = [LF; LF] ++ lit "**1.** one" ++ [LF] ++ [LF; LF] ++ lit "**2.** two".
Proof. vm_compute. reflexivity. Qed.

(** ** The request handlers *)

Lemma extractVideoId_truthy link videoId :
  extractVideoId link = Some videoId -> truthy link = true.
Proof. destruct link; [discriminate|reflexivity]. Qed.

(** The handler on a link from which an identifier is extracted. *)
Lemma summarize_valid env b link videoId :
  youtube_link b = Some link ->
  extractVideoId link = Some videoId ->
  summarize env b =
  generate env b link videoId
    (match getVideoMetadata env videoId with
     | inl md => md
     | inr _ => placeholder_metadata
     end)
    (getVideoTranscript env videoId).
Proof.
  intros Hl Hid. unfold summarize. rewrite Hl. cbn [truthy_opt or_empty].
  rewrite (extractVideoId_truthy _ _ Hid), Hid. reflexivity.
Qed.

(** A 200 response of [generate] carries the quality indicators and the
    metadata excerpt of the records it was given. *)
Lemma generate_200 env b link videoId md transcript :
  statusCode (generate env b link videoId md transcript) = 200 ->
  field "analysis_quality" (body (generate env b link videoId md transcript))
  = Some (analysis_quality md transcript) /\
  field "video_metadata" (body (generate env b link videoId md transcript))
  = Some (video_metadata md).
Proof.
  unfold generate.
  destruct (generateContent _ _ _ _); cbn; [auto|discriminate].
Qed.

Lemma generate_succeeds env b link videoId md transcript :
  generation_succeeds env ->
  statusCode (generate env b link videoId md transcript) = 200.
Proof.
  intros Hgen. unfold generate.
  destruct (Hgen (or_default (model b) (lit "gemini-1.5-flash"))
                 (composePrompt env md transcript (additional_prompt b)
                    (or_default (model b) (lit "gemini-1.5-flash")))
                 (configFor (or_default (model b) (lit "gemini-1.5-flash"))))
    as [text ->].
  reflexivity.
Qed.

(** C2 (the code after a failed metadata fetch).  When the metadata fetch
    throws and the model call succeeds, the response is 200 and carries the
    placeholder title, but [has_metadata] is [true]: it is computed from the
    title, and the placeholder title is a non-empty string. *)
Theorem C2_has_metadata_true_after_metadata_failure :
  forall env b link videoId msg,
    youtube_link b = Some link ->
    extractVideoId link = Some videoId ->
    getVideoMetadata env videoId = inr msg ->
    generation_succeeds env ->
    statusCode (summarize env b) = 200 /\
    excerpt "title" (body (summarize env b))
    = Some (JStr (lit "Title unavailable")) /\
    quality "has_metadata" (body (summarize env b)) = Some (JBool true).
Proof.
  intros env b link videoId msg Hl Hid Hmd Hgen.
  rewrite (summarize_valid env b link videoId Hl Hid), Hmd.
  pose proof (generate_succeeds env b link videoId placeholder_metadata
                (getVideoTranscript env videoId) Hgen) as H200.
  destruct (generate_200 _ _ _ _ _ _ H200) as [Hq Hm].
  split; [exact H200|]. unfold excerpt, quality. rewrite Hq, Hm.
  split; reflexivity.
Qed.

Lemma C2_has_metadata_true_after_metadata_failure_witness :
  statusCode (summarize metadata_failing_env sample_request) = 200 /\
  excerpt "title" (body (summarize metadata_failing_env sample_request))
  = Some (JStr (lit "Title unavailable")) /\
  quality "has_metadata" (body (summarize metadata_failing_env sample_request))
  = Some (JBool true).
Proof.
  apply (C2_has_metadata_true_after_metadata_failure
           metadata_failing_env sample_request
           (lit "https://youtube.com/watch?v=dQw4w9WgXcQ")
           (lit "dQw4w9WgXcQ")
           (lit "Failed to fetch video metadata: Network Error")).
  - reflexivity.
  - reflexivity.
  - reflexivity.
  - intros ? ? ?. eexists. reflexivity.
Defined.

(** C8 (amended).  The transcript fetcher returns [null] whenever the
    transcript service throws.  In a 200 response, an absent transcript is
    reported as [has_transcript] false, length 0 and richness [Medium]; a
    non-empty transcript is reported as [has_transcript] true, its length
    and richness [High]. *)
Theorem C8_transcript_indicators :
  (forall env videoId msg,
     fetchTranscript env videoId = inr msg ->
     getVideoTranscript env videoId = None) /\
  (forall env b link videoId,
     youtube_link b = Some link ->
     extractVideoId link = Some videoId ->
     statusCode (summarize env b) = 200 ->
     (getVideoTranscript env videoId = None ->
      transcript_indicators (body (summarize env b))
      = no_transcript_indicators) /\
     (forall t, getVideoTranscript env videoId = Some t -> t <> [] ->
      transcript_indicators (body (summarize env b))
      = (Some (JBool true), Some (JNum (len t)), Some (JStr (lit "High"))))).
Proof.
  split.
  - intros env videoId msg H. unfold getVideoTranscript. rewrite H.
    reflexivity.
  - intros env b link videoId Hl Hid H200.
    rewrite (summarize_valid env b link videoId Hl Hid) in *.
    destruct (generate_200 _ _ _ _ _ _ H200) as [Hq _].
    unfold transcript_indicators, quality. rewrite Hq. split.
    + intros ->. reflexivity.
    + intros t -> Hne. destruct t; [contradiction|]. reflexivity.
Qed.

Lemma C8_transcript_indicators_witness :
  getVideoTranscript sample_env (lit "dQw4w9WgXcQ") = Some (lit "hello world")
  /\ lit "hello world" <> [] /\
  transcript_indicators (body (summarize sample_env sample_request))
  = (Some (JBool true), Some (JNum 11), Some (JStr (lit "High"))).
Proof.
  split; [reflexivity|]. split; [discriminate|].
  apply (proj2 (proj2 C8_transcript_indicators sample_env sample_request
                  (lit "https://youtube.com/watch?v=dQw4w9WgXcQ")
                  (lit "dQw4w9WgXcQ") eq_refl eq_refl eq_refl)
               (lit "hello world")).
  - reflexivity.
  - discriminate.
Defined.

(** C8 as stated fails on a video without caption fragments: the fetcher
    returns a transcript (the empty string, not [null]) and the richness of
    the 200 response is [Medium], not [High]. *)
Lemma C8_counterexample :
  getVideoTranscript empty_transcript_env (lit "dQw4w9WgXcQ") = Some [] /\
  statusCode (summarize empty_transcript_env sample_request) = 200 /\
  quality "content_richness" (body (summarize empty_transcript_env sample_request))
  = Some (JStr (lit "Medium")) /\
  lit "Medium" <> lit "High".
Proof. repeat split; try reflexivity. discriminate. Qed.

Lemma prompt_details_set env f md :
  prompt_details (set_fetchTranscript env f) md = prompt_details env md.
Proof.
  unfold prompt_details.
  cbn [set_fetchTranscript number_toLocaleString date_toLocaleDateString].
  reflexivity.
Qed.

Lemma prompt_transcript_empty :
  prompt_transcript (Some [])
  = lit "**📝 TRANSCRIPT:** Not available (video may not have captions)".
Proof. cbn [prompt_transcript truthy]. reflexivity. Qed.

Lemma prompt_transcript_absent :
  prompt_transcript None
  = lit "**📝 TRANSCRIPT:** Not available (video may not have captions)".
Proof. cbn [prompt_transcript]. reflexivity. Qed.

(** The response built on an empty transcript is the one built on no
    transcript, also when the transcript service is replaced. *)
Lemma generate_empty_transcript env f b link videoId md :
  generate env b link videoId md (Some [])
  = generate (set_fetchTranscript env f) b link videoId md None.
Proof.
  unfold generate, composePrompt, basePrompt.
  rewrite prompt_details_set, prompt_transcript_empty,
    prompt_transcript_absent.
  change (generateContent (set_fetchTranscript env f))
    with (generateContent env).
  destruct (generateContent env _ _ _); reflexivity.
Qed.

Lemma starts_with_app pat (x : jsstring) : starts_with pat (pat ++ x) = true.
Proof.
  induction pat as [|c pat IH]; [reflexivity|].
  cbn [app starts_with]. rewrite N.eqb_refl, IH. reflexivity.
Qed.

Lemma includes_inside pat (a b c : jsstring) :
  includes pat ((a ++ pat ++ b) ++ c) = true.
Proof.
  unfold includes. rewrite <- (app_assoc a (pat ++ b) c).
  apply anywhere_found. rewrite <- (app_assoc pat b c).
  apply starts_with_app.
Qed.

Lemma lines_transcript (a b c d e f g t h r : jsstring) :
  lines [a; b; c; d; e; f; g; t; h; r]
  = (lines [a; b; c; d; e; f; g] ++ [LF]) ++ t ++ [LF] ++ lines [h; r].
Proof.
  unfold lines. cbn [join]. repeat rewrite <- app_assoc. reflexivity.
Qed.

(** The prompt composed on an empty transcript carries the no-transcript
    statement. *)
Lemma composePrompt_empty_transcript env md extra modelName :
  includes
    (lit "**📝 TRANSCRIPT:** Not available (video may not have captions)")
    (composePrompt env md (Some []) extra modelName) = true.
Proof.
  unfold composePrompt, basePrompt.
  rewrite (lines_transcript (prompt_details env md) [] _
             (prompt_description md) [] (prompt_tags md) []
             (prompt_transcript (Some [])) [] prompt_request).
  rewrite prompt_transcript_empty. apply includes_inside.
Qed.

Lemma composePrompt_set_generateContent env g md transcript extra modelName :
  composePrompt (set_generateContent env g) md transcript extra modelName
  = composePrompt env md transcript extra modelName.
Proof.
  unfold composePrompt, basePrompt, prompt_details.
  cbn [set_generateContent number_toLocaleString date_toLocaleDateString].
  reflexivity.
Qed.

Lemma composePrompt_set_fetchTranscript env f md transcript extra modelName :
  composePrompt (set_fetchTranscript env f) md transcript extra modelName
  = composePrompt env md transcript extra modelName.
Proof.
  unfold composePrompt, basePrompt. rewrite (prompt_details_set env f md).
  reflexivity.
Qed.

Lemma composePrompt_absent env md extra modelName :
  composePrompt env md None extra modelName
  = composePrompt env md (Some []) extra modelName.
Proof.
  unfold composePrompt, basePrompt.
  rewrite prompt_transcript_empty, prompt_transcript_absent. reflexivity.
Qed.

Lemma fetchBoth_set_fetchTranscript env f videoId :
  fst (fetchBoth (set_fetchTranscript env f) videoId)
  = fst (fetchBoth env videoId).
Proof. reflexivity. Qed.

(** The prompt of a valid request is the composed prompt: it is what the
    model is called with. *)
Lemma summarize_prompt_sent env b link videoId :
  youtube_link b = Some link ->
  extractVideoId link = Some videoId ->
  prompt_sent env b (or_default (model b) (lit "gemini-1.5-flash"))
    (composePrompt env (fst (fetchBoth env videoId))
       (getVideoTranscript env videoId) (additional_prompt b)
       (or_default (model b) (lit "gemini-1.5-flash"))).
Proof.
  intros Hl Hid g.
  rewrite (summarize_valid (set_generateContent env g) b link videoId Hl Hid).
  change (getVideoMetadata (set_generateContent env g))
    with (getVideoMetadata env).
  change (getVideoTranscript (set_generateContent env g))
    with (getVideoTranscript env).
  unfold fetchBoth. cbn [fst]. unfold generate.
  rewrite (composePrompt_set_generateContent env g).
  cbn [generateContent set_generateContent].
  destruct (g _ _ _) as [text|m]; [split|]; reflexivity.
Qed.

(** C10.  When the transcript service yields no caption fragment, the
    fetcher returns the empty string.  The prompt the handler then calls
    the model with carries the fixed no-transcript statement, and it is
    the prompt it calls the model with when the transcript fetch fails.
    The whole response is the one of a failed transcript fetch, and a 200
    response reports no transcript. *)
Theorem C10_empty_transcript_is_reported_as_absent :
  forall env b link videoId msg,
    youtube_link b = Some link ->
    extractVideoId link = Some videoId ->
    fetchTranscript env videoId = inl [] ->
    getVideoTranscript env videoId = Some [] /\
    (exists modelName prompt,
       prompt_sent env b modelName prompt /\
       prompt_sent (set_fetchTranscript env (fun _ => inr msg)) b
         modelName prompt /\
       includes
         (lit "**📝 TRANSCRIPT:** Not available (video may not have captions)")
         prompt = true) /\
    summarize env b
    = summarize (set_fetchTranscript env (fun _ => inr msg)) b /\
    (statusCode (summarize env b) = 200 ->
     transcript_indicators (body (summarize env b))
     = no_transcript_indicators).
Proof.
  intros env b link videoId msg Hl Hid Hf.
  assert (Ht : getVideoTranscript env videoId = Some [])
    by (unfold getVideoTranscript; rewrite Hf; reflexivity).
  split; [exact Ht|]. split.
  { exists (or_default (model b) (lit "gemini-1.5-flash")).
    exists (composePrompt env (fst (fetchBoth env videoId)) (Some [])
              (additional_prompt b)
              (or_default (model b) (lit "gemini-1.5-flash"))).
    split; [|split].
    - pose proof (summarize_prompt_sent env b link videoId Hl Hid) as H.
      rewrite Ht in H. exact H.
    - pose proof (summarize_prompt_sent
                    (set_fetchTranscript env (fun _ => inr msg))
                    b link videoId Hl Hid) as H.
      rewrite (composePrompt_set_fetchTranscript env) in H.
      rewrite (fetchBoth_set_fetchTranscript env) in H.
      change (getVideoTranscript (set_fetchTranscript env (fun _ => inr msg))
                videoId) with (@None jsstring) in H.
      rewrite (composePrompt_absent env) in H. exact H.
    - apply composePrompt_empty_transcript. }
  rewrite (summarize_valid env b link videoId Hl Hid), Ht.
  split.
  - rewrite (summarize_valid _ b link videoId Hl Hid).
    change (getVideoMetadata (set_fetchTranscript env (fun _ => inr msg)))
      with (getVideoMetadata env).
    change (getVideoTranscript (set_fetchTranscript env (fun _ => inr msg))
              videoId) with (@None jsstring).
    apply generate_empty_transcript.
  - intros H200. destruct (generate_200 _ _ _ _ _ _ H200) as [Hq _].
    unfold transcript_indicators, quality. rewrite Hq. reflexivity.
Qed.

Lemma C10_empty_transcript_is_reported_as_absent_witness :
  fetchTranscript empty_transcript_env (lit "dQw4w9WgXcQ") = inl [] /\
  (exists modelName prompt,
     prompt_sent empty_transcript_env sample_request modelName prompt /\
     includes
       (lit "**📝 TRANSCRIPT:** Not available (video may not have captions)")
       prompt = true) /\
  summarize empty_transcript_env sample_request
  = summarize (set_fetchTranscript empty_transcript_env
                 (fun _ => inr (lit "Transcript is disabled")))
      sample_request /\
  transcript_indicators (body (summarize empty_transcript_env sample_request))
  = no_transcript_indicators.
Proof.
  split; [reflexivity|].
  destruct (C10_empty_transcript_is_reported_as_absent
              empty_transcript_env sample_request
              (lit "https://youtube.com/watch?v=dQw4w9WgXcQ")
              (lit "dQw4w9WgXcQ") (lit "Transcript is disabled")
              eq_refl eq_refl eq_refl)
    as (_ & (modelName & prompt & Hs & _ & Hi) & Heq & Hind).
  split; [exists modelName, prompt; split; assumption|].
  split; [exact Heq|]. apply Hind. reflexivity.
Defined.

(** ** The prompt composer *)

Lemma truncated_short n marker s : len s <= n -> truncated n marker s = s.
Proof.
  unfold truncated, len. intros H.
  rewrite firstn_all2 by lia.
  destruct (N.ltb_spec n (N.of_nat (length s))); [lia|apply app_nil_r].
Qed.

Lemma truncated_long n marker s :
  n < len s ->
  truncated n marker s = firstn (N.to_nat n) s ++ marker /\
  len (firstn (N.to_nat n) s) = n.
Proof.
  unfold truncated, len. intros H.
  destruct (N.ltb_spec n (N.of_nat (length s))); [|lia].
  split; [reflexivity|]. rewrite length_firstn. lia.
Qed.

Lemma lines_cons x y l : lines (x :: y :: l) = x ++ [LF] ++ lines (y :: l).
Proof. reflexivity. Qed.

Lemma lines_one x : lines [x] = x.
Proof. reflexivity. Qed.

Lemma two_newlines (x : jsstring) : [LF] ++ [LF] ++ x = [LF; LF] ++ x.
Proof. reflexivity. Qed.

Lemma prompt_description_spec md :
  prompt_description md = spec_description_block (description md).
Proof.
  unfold prompt_description, spec_description_block.
  destruct (description md) as [[|c r]|]; reflexivity.
Qed.

Lemma prompt_tags_spec md : prompt_tags md = spec_tags_block (tags md).
Proof.
  unfold prompt_tags, spec_tags_block.
  destruct (tags md) as [[|t r]|]; reflexivity.
Qed.

Lemma prompt_transcript_spec t :
  prompt_transcript t = spec_transcript_block t.
Proof.
  unfold prompt_transcript, spec_transcript_block.
  destruct t as [[|c r]|]; reflexivity.
Qed.

(** C9.  The prompt is laid out as: the details, the description heading
    with the description block, the tags block, the transcript block, the
    analysis request, then the optional and the model-specific instructions.
    The description block is the first 1000 characters with [...] appended
    exactly when there are more, or the fixed text when the description is
    empty or absent; the tags block is empty without tags and otherwise the
    first 10 tags joined by a comma and a space; the transcript block is the
    first 6000 characters with the continues marker exactly when there are
    more, or the fixed statement when there is no transcript. *)
Theorem C9_prompt_sections :
  (forall env md transcript additional modelName,
     composePrompt env md transcript additional modelName =
     prompt_details env md ++ [LF; LF] ++
     lit "**📄 DESCRIPTION:**" ++ [LF] ++
     spec_description_block (description md) ++ [LF; LF] ++
     spec_tags_block (tags md) ++ [LF; LF] ++
     spec_transcript_block transcript ++ [LF; LF] ++
     prompt_request ++ special_instructions additional ++
     (if is_20 modelName then formatting_20 else formatting_15)) /\
  (forall n marker s, len s <= n -> truncated n marker s = s) /\
  (forall n marker s, n < len s ->
     truncated n marker s = firstn (N.to_nat n) s ++ marker /\
     len (firstn (N.to_nat n) s) = n) /\
  (forall l : list jsstring,
     (length (firstn 10 l) <= 10)%nat /\
     exists r, l = firstn 10 l ++ r).
Proof.
  split; [|split; [|split]].
  - intros env md transcript additional modelName.
    unfold composePrompt, basePrompt.
    rewrite (prompt_description_spec md), (prompt_tags_spec md),
      (prompt_transcript_spec transcript).
    rewrite !lines_cons, lines_one, !app_nil_l, <- !app_assoc, !two_newlines.
    reflexivity.
  - exact truncated_short.
  - exact truncated_long.
  - intros l. split.
    + apply firstn_le_length.
    + exists (skipn 10 l). symmetry. apply firstn_skipn.
Qed.

Lemma C9_prompt_sections_witness :
  (len (lit "abc") <= 1000 /\
   truncated 1000 (lit "...") (lit "abc") = lit "abc") /\
  (2 < len (lit "abc") /\
   truncated 2 (lit "...") (lit "abc") = lit "ab...").
Proof.
  destruct C9_prompt_sections as (_ & Hshort & Hlong & _).
  split; split.
  - discriminate.
  - apply Hshort. discriminate.
  - reflexivity.
  - apply (Hlong 2 (lit "...") (lit "abc")). reflexivity.
Defined.

(** ** The two entry points *)

Lemma server_body_of env message b :
  Server.summarize env message (Server.body_of b)
  = if negb (Server.truthy_value (of_opt (youtube_link b))) then
      {| Server.status := 400;
         Server.sent :=
           JObj [("error", JStr (lit "YouTube link is required"))]%string |}
    else
      match of_opt (youtube_link b) with
      | JStr link =>
        match extractVideoId link with
        | None =>
          {| Server.status := 400;
             Server.sent :=
               JObj [("error", JStr (lit "Invalid YouTube URL"))]%string |}
        | Some videoId =>
          {| Server.status := 200;
             Server.sent :=
               JObj [("success", JBool true);
                     ("message",
                        JStr (lit "Backend is working! Video analysis will be added next."));
                     ("video_url", of_opt (youtube_link b));
                     ("video_id", JStr videoId);
                     ("model_used",
                        if Server.truthy_value (of_opt (model b))
                        then of_opt (model b)
                        else JStr (lit "gemini-1.5-flash"));
                     ("timestamp", JStr (now_toISOString env))]%string |}
        end
      | _ =>
        Server.failed message
          (Server.MatchIsNotAFunction (of_opt (youtube_link b)))
      end.
Proof. reflexivity. Qed.

Lemma model_used_typed (v : option jsstring) d :
  (if Server.truthy_value (of_opt v) then of_opt v else JStr d)
  = JStr (or_default v d).
Proof. destruct v as [[|c r]|]; reflexivity. Qed.

(** C1 (amended).  On a body whose fields are strings or absent, both
    entry points validate the request in the same way: when the server
    answers 400, the function answers 400 with the same body.  Otherwise
    the server answers 200 and the function does not answer 400.  The
    server then performs no fetch and calls no model: its answer is the
    same in every environment with the same clock.  It sends a fixed
    message and echoes the submitted link, the 11-character identifier
    extracted from it and the requested model name, or the default one; it
    sends no summary, no metadata excerpt and no quality indicators.
    Whenever the function also answers 200, the two bodies agree on the
    success flag, the model name, the link and the identifier. *)
Theorem C1_entry_points_share_validation_and_echo :
  forall env message b,
    (Server.status (Server.summarize env message (Server.body_of b)) = 400 ->
     equivalent (summarize env b)
       (Server.summarize env message (Server.body_of b))) /\
    (Server.status (Server.summarize env message (Server.body_of b)) <> 400 ->
     Server.status (Server.summarize env message (Server.body_of b)) = 200 /\
     statusCode (summarize env b) <> 400 /\
     (forall env',
        now_toISOString env' = now_toISOString env ->
        Server.summarize env' message (Server.body_of b)
        = Server.summarize env message (Server.body_of b)) /\
     (exists link videoId,
        youtube_link b = Some link /\
        extractVideoId link = Some videoId /\
        len videoId = 11 /\
        field "video_url"
          (Server.sent (Server.summarize env message (Server.body_of b)))
        = Some (JStr link) /\
        field "video_id"
          (Server.sent (Server.summarize env message (Server.body_of b)))
        = Some (JStr videoId)) /\
     field "model_used"
       (Server.sent (Server.summarize env message (Server.body_of b)))
     = Some (JStr (or_default (model b) (lit "gemini-1.5-flash"))) /\
     field "success"
       (Server.sent (Server.summarize env message (Server.body_of b)))
     = Some (JBool true) /\
     field "message"
       (Server.sent (Server.summarize env message (Server.body_of b)))
     = Some (JStr (lit "Backend is working! Video analysis will be added next.")) /\
     field "summary"
       (Server.sent (Server.summarize env message (Server.body_of b))) = None /\
     field "video_metadata"
       (Server.sent (Server.summarize env message (Server.body_of b))) = None /\
     field "analysis_quality"
       (Server.sent (Server.summarize env message (Server.body_of b))) = None /\
     (statusCode (summarize env b) = 200 ->
      Forall (fun k =>
                field k (body (summarize env b))
                = field k (Server.sent
                             (Server.summarize env message (Server.body_of b))))
             ["success"; "model_used"; "video_url"; "video_id"]%string)).
Proof.
  intros env message b.
  assert (Henv : forall env',
            now_toISOString env' = now_toISOString env ->
            Server.summarize env' message (Server.body_of b)
            = Server.summarize env message (Server.body_of b)).
  { intros env' Hn. rewrite 2 server_body_of, Hn. reflexivity. }
  revert Henv. rewrite (server_body_of env message b). unfold summarize.
  rewrite (model_used_typed (model b)).
  destruct (youtube_link b) as [[|c l]|] eqn:Hl;
    cbn [of_opt Server.truthy_value truthy truthy_opt negb or_empty];
    intros Henv.
  1,3: split; [intros _; split; reflexivity|]; intros H; exfalso; apply H;
    reflexivity.
  destruct (extractVideoId (c :: l)) as [videoId|] eqn:Hid.
  2:{ split; [intros _; split; reflexivity|]. intros H. exfalso. apply H.
      reflexivity. }
  split; [discriminate|]. intros _.
  split; [reflexivity|].
  destruct (fetchBoth env videoId) as [md transcript]. unfold generate.
  destruct (generateContent env _ _ _) as [text|msg];
    cbn [statusCode respond Server.status Server.sent];
    (split; [discriminate|]); (split; [exact Henv|]);
    (split; [exists (c :: l), videoId;
             split; [reflexivity|];
             split; [exact Hid|];
             split; [apply (proj1 (extractVideoId_sound _ _ Hid))|];
             split; reflexivity|]);
    repeat (split; [reflexivity|]).
  - intros _. repeat constructor.
  - discriminate.
Qed.

Lemma C1_entry_points_share_validation_and_echo_witness :
  Server.status
    (Server.summarize sample_env node_messages (Server.body_of sample_request))
  <> 400 /\
  statusCode (summarize sample_env sample_request) = 200 /\
  Server.summarize metadata_failing_env node_messages
    (Server.body_of sample_request)
  = Server.summarize sample_env node_messages (Server.body_of sample_request) /\
  Forall (fun k =>
            field k (body (summarize sample_env sample_request))
            = field k (Server.sent
                         (Server.summarize sample_env node_messages
                            (Server.body_of sample_request))))
         ["success"; "model_used"; "video_url"; "video_id"]%string.
Proof.
  assert (H : Server.status
                (Server.summarize sample_env node_messages
                   (Server.body_of sample_request)) <> 400)
    by (vm_compute; discriminate).
  split; [exact H|]. split; [vm_compute; reflexivity|].
  destruct (proj2 (C1_entry_points_share_validation_and_echo
                     sample_env node_messages sample_request) H)
    as (_ & _ & Henv & _ & _ & _ & _ & _ & _ & _ & Hagree).
  split.
  - apply Henv. vm_compute. reflexivity.
  - apply Hagree. vm_compute. reflexivity.
Defined.

(** C1 as stated fails: on the sample request both entry points answer
    200, but the server sends no summary and no quality indicators, so the
    two responses are not equivalent. *)
Lemma C1_counterexample :
  statusCode (summarize sample_env sample_request) = 200 /\
  field "summary" (body (summarize sample_env sample_request))
  = Some (JStr (lit "Generated summary")) /\
  field "summary"
    (Server.sent
       (Server.summarize sample_env node_messages
          (Server.body_of sample_request)))
  = None /\
  ~ equivalent (summarize sample_env sample_request)
      (Server.summarize sample_env node_messages
         (Server.body_of sample_request)).
Proof.
  repeat split; try (vm_compute; reflexivity).
  intros [_ H]. vm_compute in H. discriminate.
Qed.

(** * Further properties of the code *)

(** ** The matcher hands over to the right of where it started *)

Lemma star_some_run {A} p : forall s pre caps (k : @cont A) x,
  star p pre s caps k = Some x ->
  exists w s', s = w ++ s' /\ forallb p w = true /\
               k (rev w ++ pre) s' caps = Some x.
Proof.
  induction s as [|c t IH]; intros pre caps k x H; cbn [star] in H.
  - exists [], []. auto.
  - destruct (p c) eqn:Hc.
    + destruct (star p (c :: pre) t caps k) eqn:E.
      * destruct (IH _ _ _ _ E) as (w & s' & -> & Hw & Hk).
        exists (c :: w), s'. split; [reflexivity|]. split.
        { simpl. rewrite Hc, Hw. reflexivity. }
        simpl. rewrite <- app_assoc. simpl. congruence.
      * exists [], (c :: t). auto.
    + exists [], (c :: t). auto.
Qed.

Lemma atleast_some {A} p : forall n s pre caps (k : @cont A) x,
  atleast n p pre s caps k = Some x ->
  exists w s', s = w ++ s' /\ forallb p w = true /\
               k (rev w ++ pre) s' caps = Some x.
Proof.
  induction n as [|n IH]; intros s pre caps k x H; cbn [atleast] in H.
  - apply star_some_run, H.
  - destruct s as [|c t]; [discriminate|].
    destruct (p c) eqn:Hc; [|discriminate].
    destruct (IH _ _ _ _ _ H) as (w & s' & -> & Hw & Hk).
    exists (c :: w), s'. split; [reflexivity|]. split.
    + simpl. rewrite Hc, Hw. reflexivity.
    + simpl. rewrite <- app_assoc. exact Hk.
Qed.

(** Whatever the pattern, a successful attempt calls its continuation on a
    rest of the text it was given. *)
Lemma m_some {A} ml r : forall pre s caps (k : @cont A) x,
  m ml r pre s caps k = Some x ->
  exists w s' caps', s = w ++ s' /\ k (rev w ++ pre) s' caps' = Some x.
Proof.
  induction r as [|c|p|r1 IH1 r2 IH2|r1 IH1 r2 IH2|p|n p|r1 IH1|i r1 IH1| |];
    intros pre s caps k x H; cbn [m] in H.
  - exists [], s, caps. auto.
  - destruct s as [|y t]; [discriminate|].
    destruct (y =? c); [|discriminate]. exists [y], t, caps. auto.
  - destruct s as [|y t]; [discriminate|].
    destruct (p y); [|discriminate]. exists [y], t, caps. auto.
  - destruct (IH1 _ _ _ _ _ H) as (w1 & s1 & c1 & -> & H1).
    destruct (IH2 _ _ _ _ _ H1) as (w2 & s2 & c2 & -> & H2).
    exists (w1 ++ w2), s2, c2. split; [apply app_assoc|].
    rewrite rev_app_distr, <- app_assoc. exact H2.
  - destruct (m ml r1 pre s caps k) eqn:E.
    + apply (IH1 pre s caps k x). congruence.
    + apply (IH2 pre s caps k x H).
  - destruct (star_some_run _ _ _ _ _ _ H) as (w & s' & E & _ & Hk).
    exists w, s', caps. auto.
  - destruct (atleast_some _ _ _ _ _ _ _ H) as (w & s' & E & _ & Hk).
    exists w, s', caps. auto.
  - destruct (m ml r1 pre s caps k) eqn:E.
    + apply (IH1 pre s caps k x). congruence.
    + exists [], s, caps. auto.
  - destruct (IH1 _ _ _ _ _ H) as (w & s' & c' & E & Hk).
    exists w, s', ((i, consumed s s') :: c'). auto.
  - destruct (at_bol ml pre); [|discriminate]. exists [], s, caps. auto.
  - destruct (at_eol ml s); [|discriminate]. exists [], s, caps. auto.
Qed.

(** A star followed by nothing that can fail consumes the longest run. *)
Lemma star_final {A} p (f : jsstring -> captures -> A) s pre caps :
  star p pre s caps (fun _ s' caps' => Some (f s' caps'))
  = Some (f (dropWhile p s) caps).
Proof. apply star_greedy. reflexivity. Qed.

(** ** The URL parser: where an identifier comes from *)

Lemma starts_with_split pat : forall s,
  starts_with pat s = true -> s = pat ++ skipn (length pat) s.
Proof.
  induction pat as [|c pat IH]; intros s H; [reflexivity|].
  destruct s as [|d s]; [discriminate|]. cbn [starts_with] in H.
  apply andb_prop in H. destruct H as [Hc H]. apply N.eqb_eq in Hc. subst d.
  cbn [length skipn app]. f_equal. apply IH, H.
Qed.

(** Where the pattern recognizes a shape, group 1 consumes exactly the text
    of that shape. *)
Lemma marker_exact s :
  shape_at s = true ->
  exists mk after,
    s = mk ++ after /\ shape_text mk = true /\
    forall A pre caps (k : @cont A),
      m false re_marker pre s caps k = k (rev mk ++ pre) after caps.
Proof.
  intros H. unfold shape_at in H.
  repeat (apply orb_true_iff in H; destruct H as [H|H]).
  - apply andb_prop in H. destruct H as [H1 H2].
    apply starts_with_split in H1. change (length (lit "youtu")) with 5%nat in H1.
    destruct (skipn 5 s) as [|c t]; [discriminate|].
    apply andb_prop in H2. destruct H2 as [Hc H2].
    apply starts_with_split in H2. set (rest := skipn (length (lit "be/")) t) in *.
    exists (lit "youtu" ++ c :: lit "be/"), rest. rewrite H1, H2.
    split; [rewrite <- app_assoc; reflexivity|]. split.
    { unfold shape_text. vm_compute lit. cbn [app]. rewrite Hc.
      reflexivity. }
    intros A pre caps k. unfold re_marker. cbn. rewrite Hc.
    match goal with |- context [k ?a ?b ?c] => destruct (k a b c) end;
    reflexivity.
  - apply starts_with_split in H. set (rest := skipn _ s) in *.
    exists (lit "v/"), rest. rewrite H. repeat split.
    intros A pre caps k. vm_compute.
    match goal with |- context [k ?a ?b ?c] => destruct (k a b c) end;
    reflexivity.
  - apply andb_prop in H. destruct H as [H1 H2].
    apply starts_with_split in H1. change (length (lit "u/")) with 2%nat in H1.
    destruct (skipn 2 s) as [|c t]; [discriminate|].
    apply andb_prop in H2. destruct H2 as [Hc H2].
    apply starts_with_split in H2. set (rest := skipn (length (lit "/")) t) in *.
    exists (lit "u/" ++ c :: lit "/"), rest. rewrite H1, H2.
    split; [rewrite <- app_assoc; reflexivity|]. split.
    { unfold shape_text. vm_compute lit. cbn [app]. rewrite Hc.
      reflexivity. }
    intros A pre caps k. unfold re_marker. cbn. rewrite Hc.
    match goal with |- context [k ?a ?b ?c] => destruct (k a b c) end;
    reflexivity.
  - apply starts_with_split in H. set (rest := skipn _ s) in *.
    exists (lit "embed/"), rest. rewrite H. repeat split.
    intros A pre caps k. vm_compute.
    match goal with |- context [k ?a ?b ?c] => destruct (k a b c) end;
    reflexivity.
  - apply starts_with_split in H. set (rest := skipn _ s) in *.
    exists (lit "watch?v="), rest. rewrite H. repeat split.
    intros A pre caps k. vm_compute.
    match goal with |- context [k ?a ?b ?c] => destruct (k a b c) end;
    reflexivity.
  - apply starts_with_split in H. set (rest := skipn _ s) in *.
    exists (lit "&v="), rest. rewrite H. repeat split.
Qed.

Lemma consumed_dropWhile p (s : jsstring) :
  consumed s (dropWhile p s) = takeWhile p s.
Proof.
  rewrite <- (take_drop_while p s) at 1. apply consumed_app.
Qed.

Lemma at_bol_start pre : at_bol false pre = true -> pre = [].
Proof. destruct pre; [reflexivity|discriminate]. Qed.

(** X1.  Whenever the parser returns an identifier, the URL is a prefix
    without line terminator, then one of the shapes of the pattern, then a
    rest; the identifier is the text of that rest up to its first [#], [&]
    or [?] (or its end), and it has exactly 11 characters. *)
Theorem extractVideoId_exact :
  forall url tok,
    extractVideoId url = Some tok ->
    exists pre mk after,
      url = pre ++ mk ++ after /\
      forallb dot pre = true /\
      shape_text mk = true /\
      tok = takeWhile not_delim after /\
      len tok = 11.
Proof.
  intros url tok H. unfold extractVideoId, js_match in H.
  destruct (search false re_video [] url) as [[whole caps]|] eqn:Es;
    [|discriminate].
  apply search_some in Es. destruct Es as (a & s' & -> & He).
  unfold exec, re_video in He. rewrite m_seq, m_bol in He.
  destruct (at_bol false (rev a ++ [])) eqn:Hb; [|discriminate].
  apply at_bol_start in Hb. rewrite app_nil_r in Hb.
  apply (f_equal (@rev N)) in Hb. rewrite rev_involutive in Hb.
  simpl in Hb. subst a. cbn [rev app] in He.
  rewrite m_seq in He. cbn [m] in He.
  apply star_some_run in He. destruct He as (w & s'' & -> & Hw & Hk).
  destruct (shape_at s'') eqn:Esh.
  2:{ rewrite marker_none in Hk by exact Esh. discriminate. }
  destruct (marker_exact _ Esh) as (mk & after & -> & Hmk & Hm).
  rewrite Hm in Hk.
  erewrite star_greedy in Hk
    by (apply (star_final dot (fun s' c => (consumed _ s', c)))).
  injection Hk as _ Hcaps. subst caps. cbn [cap Nat.eqb] in H.
  rewrite consumed_dropWhile in H.
  destruct (N.eqb_spec (len (takeWhile not_delim after)) 11) as [E|E];
    [|discriminate].
  injection H as <-.
  exists w, mk, after.
  split; [reflexivity|]. split; [exact Hw|]. split; [exact Hmk|].
  split; [reflexivity|exact E].
Qed.

Lemma extractVideoId_exact_witness :
  exists pre mk after,
    lit "https://youtu.be/dQw4w9WgXcQ?t=1" = pre ++ mk ++ after /\
    forallb dot pre = true /\
    shape_text mk = true /\
    lit "dQw4w9WgXcQ" = takeWhile not_delim after /\
    len (lit "dQw4w9WgXcQ") = 11.
Proof.
  apply (extractVideoId_exact (lit "https://youtu.be/dQw4w9WgXcQ?t=1")).
  reflexivity.
Defined.

(** ** The function handler: statuses, headers, dispatch *)

Lemma eqb_str_false (a b : jsstring) : a <> b -> eqb_str a b = false.
Proof.
  unfold eqb_str. destruct (list_eq_dec N.eq_dec a b); [contradiction|auto].
Qed.

Lemma generate_status env b link videoId md transcript :
  headers (generate env b link videoId md transcript) = cors_headers /\
  (statusCode (generate env b link videoId md transcript) = 200 \/
   statusCode (generate env b link videoId md transcript) = 500).
Proof.
  unfold generate. destruct (generateContent _ _ _ _); cbn; auto.
Qed.

Lemma summarize_status env b :
  headers (summarize env b) = cors_headers /\
  (statusCode (summarize env b) = 200 \/
   statusCode (summarize env b) = 400 \/
   statusCode (summarize env b) = 500).
Proof.
  unfold summarize.
  destruct (negb (truthy_opt (youtube_link b))); [cbn; auto|].
  destruct (extractVideoId _) as [videoId|]; [|cbn; auto].
  destruct (fetchBoth env videoId) as [md tr].
  destruct (generate_status env b (or_empty (youtube_link b)) videoId md tr)
    as [Hh [Hs|Hs]]; auto.
Qed.

(** X2.  Whatever the event and the environment, the function answers with
    status 200, 400, 405 or 500 and always sends the three CORS headers. *)
Theorem handler_status_and_headers :
  forall env ev,
    headers (handler env ev) = cors_headers /\
    In (statusCode (handler env ev)) [200; 400; 405; 500].
Proof.
  intros env ev. unfold handler.
  destruct (eqb_str (httpMethod ev) (lit "OPTIONS")); [cbn; auto 10|].
  destruct (eqb_str (httpMethod ev) (lit "GET")); [cbn; auto 10|].
  destruct (negb (eqb_str (httpMethod ev) (lit "POST"))); [cbn; auto 10|].
  destruct (event_body ev) as [b|msg]; [|cbn; auto 10].
  destruct (summarize_status env b) as [Hh [Hs|[Hs|Hs]]];
    rewrite Hh, Hs; cbn; auto 10.
Qed.

(** X3.  For every method but POST the answer depends on nothing but the
    method, the presence of the two keys and the clock: the body is not
    read and no remote service is called.  A method other than OPTIONS, GET
    and POST is answered with 405. *)
Theorem handler_other_methods :
  forall env env' ev ev',
    httpMethod ev <> lit "POST" ->
    httpMethod ev' = httpMethod ev ->
    truthy_opt (GEMINI_API_KEY env') = truthy_opt (GEMINI_API_KEY env) ->
    truthy_opt (YOUTUBE_API_KEY env') = truthy_opt (YOUTUBE_API_KEY env) ->
    now_toISOString env' = now_toISOString env ->
    handler env' ev' = handler env ev /\
    (httpMethod ev <> lit "OPTIONS" -> httpMethod ev <> lit "GET" ->
     statusCode (handler env ev) = 405).
Proof.
  intros env env' ev ev' Hpost Hm Hg Hy Hn. unfold handler.
  rewrite Hm, Hg, Hy, Hn, (eqb_str_false _ _ Hpost). cbn [negb].
  split; [reflexivity|]. intros Ho Hget.
  rewrite (eqb_str_false _ _ Ho), (eqb_str_false _ _ Hget). reflexivity.
Qed.

Lemma lit_DELETE_other :
  lit "DELETE" <> lit "POST" /\ lit "DELETE" <> lit "OPTIONS" /\
  lit "DELETE" <> lit "GET".
Proof. repeat split; intros H; vm_compute in H; discriminate. Qed.

Lemma handler_other_methods_witness :
  handler metadata_failing_env
    {| httpMethod := lit "DELETE"; event_body := inr (lit "bad JSON") |}
  = handler sample_env
      {| httpMethod := lit "DELETE"; event_body := inl sample_request |} /\
  statusCode
    (handler sample_env
       {| httpMethod := lit "DELETE"; event_body := inl sample_request |})
  = 405.
Proof.
  destruct lit_DELETE_other as (Hp & Ho & Hg).
  destruct (handler_other_methods sample_env metadata_failing_env
              {| httpMethod := lit "DELETE";
                 event_body := inl sample_request |}
              {| httpMethod := lit "DELETE";
                 event_body := inr (lit "bad JSON") |}
              Hp eq_refl) as [H1 H2];
    try (vm_compute; reflexivity).
  split; [exact H1|exact (H2 Ho Hg)].
Defined.

(** X4.  A summarize request is rejected with 400 exactly when the link is
    missing or empty or no identifier can be extracted from it; a 500
    answer always carries the fixed error text and the message of the
    failed model call; no fetch failure alone produces an error status. *)
Theorem summarize_rejections :
  forall env b,
    (statusCode (summarize env b) = 400 <->
     truthy_opt (youtube_link b) = false \/
     extractVideoId (or_empty (youtube_link b)) = None) /\
    (statusCode (summarize env b) = 500 ->
     exists modelName prompt msg,
       generateContent env modelName prompt (configFor modelName) = inr msg /\
       body (summarize env b) = failure_body msg).
Proof.
  intros env b. unfold summarize.
  destruct (truthy_opt (youtube_link b)); cbn [negb].
  2:{ split; [split; auto|discriminate]. }
  destruct (extractVideoId _) as [videoId|].
  2:{ split; [split; auto|discriminate]. }
  destruct (fetchBoth env videoId) as [md tr]. unfold generate.
  destruct (generateContent env _ _ _) as [text|msg] eqn:E; cbn.
  - split; [|discriminate]. split; [discriminate|].
    intros [H|H]; discriminate.
  - split.
    + split; [discriminate|]. intros [H|H]; discriminate.
    + intros _. eexists _, _, msg. split; [exact E|reflexivity].
Qed.

Lemma summarize_rejections_witness :
  statusCode
    (summarize sample_env
       {| youtube_link := Some (lit "https://example.com/");
          model := None; additional_prompt := None |}) = 400.
Proof.
  apply (proj1 (summarize_rejections sample_env _)). right. reflexivity.
Defined.

(** ** The function handler: what a 200 answer carries *)

(** X5.  A 200 answer echoes the submitted link and carries the identifier
    extracted from it, which has exactly 11 characters; the model named in
    the answer is the requested one, or [gemini-1.5-flash] when the request
    names none or an empty one. *)
Theorem summarize_200_echo :
  forall env b,
    statusCode (summarize env b) = 200 ->
    exists link videoId,
      youtube_link b = Some link /\
      extractVideoId link = Some videoId /\
      len videoId = 11 /\
      field "success" (body (summarize env b)) = Some (JBool true) /\
      field "video_url" (body (summarize env b)) = Some (JStr link) /\
      field "video_id" (body (summarize env b)) = Some (JStr videoId) /\
      field "model_used" (body (summarize env b))
      = Some (JStr (match model b with
                    | Some (c :: r) => c :: r
                    | _ => lit "gemini-1.5-flash"
                    end)).
Proof.
  intros env b. unfold summarize.
  destruct (youtube_link b) as [[|c l]|]; cbn [truthy_opt truthy negb];
    try discriminate.
  cbn [or_empty].
  destruct (extractVideoId (c :: l)) as [videoId|] eqn:Eid; [|discriminate].
  destruct (fetchBoth env videoId) as [md tr]. unfold generate.
  destruct (generateContent env _ _ _) as [text|msg]; [|discriminate].
  intros _. exists (c :: l), videoId.
  split; [reflexivity|]. split; [exact Eid|].
  split; [apply (extractVideoId_sound _ _ Eid)|].
  cbn [body respond success_body field assoc String.eqb Ascii.eqb Bool.eqb].
  repeat split. destruct (model b) as [[|c' r]|]; reflexivity.
Qed.

Lemma summarize_200_echo_witness :
  exists link videoId,
    youtube_link sample_request = Some link /\
    extractVideoId link = Some videoId /\
    len videoId = 11 /\
    field "success" (body (summarize sample_env sample_request))
    = Some (JBool true) /\
    field "video_url" (body (summarize sample_env sample_request))
    = Some (JStr link) /\
    field "video_id" (body (summarize sample_env sample_request))
    = Some (JStr videoId) /\
    field "model_used" (body (summarize sample_env sample_request))
    = Some (JStr (match model sample_request with
                  | Some (c :: r) => c :: r
                  | _ => lit "gemini-1.5-flash"
                  end)).
Proof.
  apply (summarize_200_echo sample_env sample_request).
  vm_compute. reflexivity.
Defined.

(** X6.  In a 200 answer the summary is the text the model returned,
    unchanged unless the model name contains [2.0], in which case it is
    the cleaned text; the model was called under the name reported in the
    answer, with the generation settings of its family. *)
Theorem summarize_200_summary :
  forall env b,
    statusCode (summarize env b) = 200 ->
    exists modelName prompt text,
      field "model_used" (body (summarize env b)) = Some (JStr modelName) /\
      generateContent env modelName prompt (configFor modelName) = inl text /\
      field "summary" (body (summarize env b))
      = Some (JStr (if includes (lit "2.0") modelName
                    then cleanFormatting text else text)).
Proof.
  intros env b. unfold summarize.
  destruct (negb (truthy_opt (youtube_link b))); [discriminate|].
  destruct (extractVideoId _) as [videoId|]; [|discriminate].
  destruct (fetchBoth env videoId) as [md tr]. unfold generate.
  destruct (generateContent env _ _ _) as [text|msg] eqn:E; [|discriminate].
  intros _. eexists _, _, text.
  split; [reflexivity|]. split; [exact E|reflexivity].
Qed.

Lemma summarize_200_summary_witness :
  exists modelName prompt text,
    field "model_used" (body (summarize sample_env sample_request))
    = Some (JStr modelName) /\
    generateContent sample_env modelName prompt (configFor modelName)
    = inl text /\
    field "summary" (body (summarize sample_env sample_request))
    = Some (JStr (if includes (lit "2.0") modelName
                  then cleanFormatting text else text)).
Proof.
  apply (summarize_200_summary sample_env sample_request).
  vm_compute. reflexivity.
Defined.

(** ** The persistent server *)

Lemma server_status_cases env message body :
  Server.status (Server.summarize env message body) = 500 <->
  Server.nullish body = true \/
  (Server.truthy_value (Server.prop "youtube_link" body) = true /\
   forall link, Server.prop "youtube_link" body <> JStr link).
Proof.
  unfold Server.summarize.
  destruct (Server.nullish body) eqn:Hb.
  { split; [intros _; left; reflexivity|intros _; reflexivity]. }
  destruct (Server.truthy_value (Server.prop "youtube_link" body)) eqn:Ht;
    cbn [negb].
  2:{ split; [discriminate|]. intros [H|[H _]]; discriminate. }
  destruct (Server.prop "youtube_link" body) as [| |x|n|link|l|fs];
    try (split; [intros _; right; split; [reflexivity|discriminate]
                |intros _; reflexivity]).
  split.
  - destruct (extractVideoId link); discriminate.
  - intros [H|[_ H]]; [discriminate|]. exfalso. apply (H link). reflexivity.
Qed.

(** X7.  The summarize route of the server answers 200, 400 or 500 only.
    It answers 500, with the error text of its [catch], exactly when the
    body is [undefined] or [null] or the link is truthy and not a string.
    Its answer depends on nothing but the request body, the clock and the
    text of the engine's errors: it reads no key and calls no remote
    service. *)
Theorem server_summarize_local :
  forall env env' message body,
    now_toISOString env' = now_toISOString env ->
    Server.summarize env' message body = Server.summarize env message body /\
    In (Server.status (Server.summarize env message body)) [200; 400; 500] /\
    (Server.status (Server.summarize env message body) = 500 <->
     Server.nullish body = true \/
     (Server.truthy_value (Server.prop "youtube_link" body) = true /\
      forall link, Server.prop "youtube_link" body <> JStr link)) /\
    (Server.status (Server.summarize env message body) = 500 ->
     field "error" (Server.sent (Server.summarize env message body))
     = Some (JStr (lit "Failed to process request"))).
Proof.
  intros env env' message body Hn.
  split; [unfold Server.summarize; rewrite Hn; reflexivity|].
  split; [|split; [apply server_status_cases|]].
  - unfold Server.summarize. destruct (Server.nullish body).
    { cbn; auto 10. }
    destruct (negb _); [cbn; auto 10|].
    destruct (Server.prop "youtube_link" body); try (cbn; auto 10).
    destruct (extractVideoId s); cbn; auto 10.
  - unfold Server.summarize. destruct (Server.nullish body); [reflexivity|].
    destruct (negb _); [discriminate|].
    destruct (Server.prop "youtube_link" body); try reflexivity.
    destruct (extractVideoId s); discriminate.
Qed.

Lemma server_summarize_local_witness :
  Server.summarize metadata_failing_env node_messages numeric_link_body
  = Server.summarize sample_env node_messages numeric_link_body /\
  Server.status (Server.summarize sample_env node_messages numeric_link_body)
  = 500 /\
  field "error"
    (Server.sent (Server.summarize sample_env node_messages numeric_link_body))
  = Some (JStr (lit "Failed to process request")).
Proof.
  destruct (server_summarize_local sample_env metadata_failing_env
              node_messages numeric_link_body) as (H1 & _ & H3 & H4);
    [vm_compute; reflexivity|].
  assert (H : Server.status
                (Server.summarize sample_env node_messages numeric_link_body)
              = 500).
  { apply H3. right. split; [reflexivity|discriminate]. }
  split; [exact H1|]. split; [exact H|]. apply H4, H.
Defined.

(** ** The fetchers *)

Lemma failed_prefix (T : Type) pat x (msg : jsstring) :
  @inr T jsstring (pat ++ x) = inr msg -> starts_with pat msg = true.
Proof. intros H. assert (E : pat ++ x = msg) by congruence. rewrite <- E.
  apply starts_with_app. Qed.

(** X8.  Every failure of the metadata fetcher is reported with a message
    that starts with [Failed to fetch video metadata: ]; without a
    configured key the fetcher fails without calling the API, whatever the
    API would have answered. *)
Theorem getVideoMetadata_failures :
  (forall env videoId msg,
     getVideoMetadata env videoId = inr msg ->
     starts_with (lit "Failed to fetch video metadata: ") msg = true) /\
  (forall env videoId api,
     truthy_opt (YOUTUBE_API_KEY env) = false ->
     getVideoMetadata (set_axios_get_videos env api) videoId
     = inr (lit "Failed to fetch video metadata: " ++
            lit "YouTube API key not configured")).
Proof.
  split.
  - intros env videoId msg. unfold getVideoMetadata.
    destruct (YOUTUBE_API_KEY env) as [key|]; [|apply failed_prefix].
    destruct (negb (truthy key)); [apply failed_prefix|].
    destruct (axios_get_videos env videoId key) as [[|video rest]|e];
      try apply failed_prefix.
    destruct (Api.v_snippet video), (Api.v_statistics video),
      (Api.v_contentDetails video);
      try apply failed_prefix; discriminate.
  - intros env videoId api Hk. unfold getVideoMetadata.
    cbn [YOUTUBE_API_KEY set_axios_get_videos].
    destruct (YOUTUBE_API_KEY env) as [[|c key]|]; try discriminate;
      reflexivity.
Qed.

Lemma getVideoMetadata_failures_witness :
  starts_with (lit "Failed to fetch video metadata: ")
    (lit "Failed to fetch video metadata: Network Error") = true.
Proof.
  apply (proj1 getVideoMetadata_failures metadata_failing_env
           (lit "dQw4w9WgXcQ")).
  vm_compute. reflexivity.
Defined.

(** X9.  The metadata record the handler works with always has a
    description, whether the fetch succeeded or not; it lacks the tag list
    exactly when the fetch failed, and it is then the placeholder record. *)
Theorem fetchBoth_metadata :
  forall env videoId,
    (exists d, description (fst (fetchBoth env videoId)) = Some d) /\
    ((exists msg, getVideoMetadata env videoId = inr msg) <->
     tags (fst (fetchBoth env videoId)) = None) /\
    ((exists msg, getVideoMetadata env videoId = inr msg) ->
     fst (fetchBoth env videoId) = placeholder_metadata).
Proof.
  intros env videoId. unfold fetchBoth. cbn [fst snd].
  destruct (getVideoMetadata env videoId) as [md|msg] eqn:E.
  - unfold getVideoMetadata in E.
    destruct (YOUTUBE_API_KEY env) as [key|]; [|discriminate].
    destruct (negb (truthy key)); [discriminate|].
    destruct (axios_get_videos env videoId key) as [[|video rest]|e];
      try discriminate.
    destruct (Api.v_snippet video), (Api.v_statistics video),
      (Api.v_contentDetails video); try discriminate.
    injection E as <-. cbn [description tags].
    split; [eexists; reflexivity|]. split.
    + split; [intros [m Hm]; discriminate|discriminate].
    + intros [m Hm]. discriminate.
  - split; [eexists; reflexivity|]. split; [|reflexivity].
    split; [reflexivity|]. intros _. exists msg. reflexivity.
Qed.

Lemma join_empty sep (l : list jsstring) :
  sep <> [] -> (join sep l = [] <-> l = [] \/ l = [[]]).
Proof.
  intros Hsep. destruct l as [|x [|y t]]; cbn [join].
  - split; auto.
  - split.
    + intros ->. auto.
    + intros [H|H]; [discriminate|]. injection H as ->. reflexivity.
  - split.
    + intros H. apply app_eq_nil in H. destruct H as [_ H].
      apply app_eq_nil in H. destruct H as [H _]. contradiction.
    + intros [H|H]; discriminate.
Qed.

(** X10.  The handler treats a video as having no transcript exactly when
    the transcript service throws, yields no caption fragment, or yields a
    single fragment with empty text. *)
Theorem transcript_missing_iff :
  forall env videoId,
    truthy_opt (getVideoTranscript env videoId) = false <->
    (exists msg, fetchTranscript env videoId = inr msg) \/
    fetchTranscript env videoId = inl [] \/
    fetchTranscript env videoId = inl [[]].
Proof.
  intros env videoId. unfold getVideoTranscript.
  destruct (fetchTranscript env videoId) as [l|msg]; cbn [truthy_opt].
  - assert (Hj : join (lit " ") l = [] <-> l = [] \/ l = [[]])
      by (apply join_empty; discriminate).
    split.
    + intros H. right.
      destruct (join (lit " ") l) eqn:E; [|discriminate].
      destruct (proj1 Hj eq_refl) as [->| ->]; auto.
    + intros [[m Hm]|[H|H]]; [discriminate| |];
        injection H as ->; reflexivity.
  - split; [intros _; left; exists msg; reflexivity|reflexivity].
Qed.

(** ** The prompt composer: additional instructions *)

Lemma dropWhile_nil_iff p (s : jsstring) :
  dropWhile p s = [] <-> forallb p s = true.
Proof.
  induction s as [|c t IH]; simpl; [tauto|].
  destruct (p c); simpl; [exact IH|]. split; discriminate.
Qed.

Lemma forallb_rev_iff p (s : jsstring) :
  forallb p (rev s) = true <-> forallb p s = true.
Proof.
  split; intros H.
  - rewrite <- (rev_involutive s). apply forallb_rev_true, H.
  - apply forallb_rev_true, H.
Qed.

(** A text trims to nothing exactly when it is white space only. *)
Lemma trim_nil_iff s : trim s = [] <-> forallb is_space s = true.
Proof.
  unfold trim. split.
  - intros H. apply (f_equal (@rev N)) in H.
    rewrite rev_involutive in H. cbn [rev] in H.
    apply dropWhile_nil_iff in H. rewrite forallb_rev_iff in H.
    pose proof (dropWhile_head is_space s) as Hh.
    destruct (dropWhile is_space s) as [|c t] eqn:E.
    + apply dropWhile_nil_iff, E.
    + cbn [head_fails] in Hh. cbn [forallb] in H. rewrite Hh in H.
      discriminate.
  - intros H. apply dropWhile_nil_iff in H. rewrite H. reflexivity.
Qed.



(** ** The duration formatter on well-formed durations *)

(** X12.  The formatter never returns the empty string. *)
Theorem formatDuration_nonempty :
  forall duration, formatDuration duration <> [].
Proof.
  intros [[|c d]|]; unfold formatDuration; cbn [truthy negb];
    try (vm_compute; discriminate).
  destruct (js_match false re_duration (c :: d)) as [[whole caps]|];
    [|discriminate].
  cbv zeta.
  match goal with |- (if truthy ?t then _ else _) <> _ => destruct t end;
    discriminate.
Qed.

Lemma m_opt {A} ml r pre s caps (k : @cont A) :
  m ml (Opt r) pre s caps k =
  match m ml r pre s caps k with
  | Some x => Some x
  | None => k pre s caps
  end.
Proof. reflexivity. Qed.

Lemma m_chr {A} ml c pre s caps (k : @cont A) :
  m ml (Chr c) pre s caps k =
  match s with
  | x :: t => if x =? c then k (x :: pre) t caps else None
  | [] => None
  end.
Proof. reflexivity. Qed.

Lemma dropWhile_run p (w s : jsstring) :
  forallb p w = true -> dropWhile p (w ++ s) = dropWhile p s.
Proof.
  induction w as [|c w IH]; intros H; [reflexivity|].
  cbn [forallb] in H. apply andb_prop in H. destruct H as [Hc H].
  cbn [app dropWhile]. rewrite Hc. apply IH, H.
Qed.

Lemma takeWhile_run p (w s : jsstring) :
  forallb p w = true -> takeWhile p (w ++ s) = w ++ takeWhile p s.
Proof.
  induction w as [|c w IH]; intros H; [reflexivity|].
  cbn [forallb] in H. apply andb_prop in H. destruct H as [Hc H].
  cbn [app takeWhile]. rewrite Hc, (IH H). reflexivity.
Qed.

Section DurationGroup.
Context {A : Type}.
Variables (i : nat) (X : N).
Hypothesis X_letter : is_digit X = false.

(** The group is [\d+X], where [X] is the unit letter. *)

Lemma group_none s pre caps (k : @cont A) :
  skip_ok X s = true -> m false (Grp i (Seq (AtLeast 1 is_digit) (Chr X))) pre s caps k = None.
Proof.
  intros H. rewrite m_grp, m_seq, m_plus.
  destruct s as [|c t]; [reflexivity|].
  destruct (is_digit c) eqn:Hc; [|reflexivity].
  apply star_none. intros w s' -> Hw. rewrite m_chr.
  destruct s' as [|y r]; [reflexivity|].
  destruct (N.eqb_spec y X) as [->|Hy]; [|reflexivity].
  exfalso. unfold skip_ok in H.
  change (c :: w ++ X :: r) with ((c :: w) ++ X :: r) in H.
  rewrite (dropWhile_run is_digit (c :: w)) in H
    by (cbn [forallb]; rewrite Hc, Hw; reflexivity).
  cbn [dropWhile] in H. rewrite X_letter, N.eqb_refl in H. discriminate.
Qed.

Lemma group_take ds rest pre caps (k : @cont A) x :
  truthy ds = true -> forallb is_digit ds = true ->
  k (X :: rev ds ++ pre) rest ((i, ds ++ [X]) :: caps) = Some x ->
  m false (Opt (Grp i (Seq (AtLeast 1 is_digit) (Chr X))))
    pre (ds ++ X :: rest) caps k = Some x.
Proof.
  intros Hne Hd Hk. rewrite m_opt.
  assert (E : m false (Grp i (Seq (AtLeast 1 is_digit) (Chr X))) pre (ds ++ X :: rest) caps k = Some x);
    [|rewrite E; reflexivity].
  rewrite m_grp, m_seq, m_plus.
  destruct ds as [|d ds]; [discriminate|].
  cbn [forallb] in Hd. apply andb_prop in Hd. destruct Hd as [Hd Hds].
  cbn [app]. rewrite Hd. apply star_greedy.
  rewrite (takeWhile_run _ _ _ Hds), (dropWhile_run _ _ _ Hds).
  cbn [takeWhile dropWhile]. rewrite X_letter, app_nil_r, m_chr, N.eqb_refl.
  replace (consumed (d :: ds ++ X :: rest) rest) with ((d :: ds) ++ [X]).
  - cbn [rev] in Hk. rewrite <- app_assoc in Hk. exact Hk.
  - symmetry. rewrite <- (consumed_app ((d :: ds) ++ [X]) rest) at 1.
    rewrite <- app_assoc. reflexivity.
Qed.

(** A component that is present is captured whole; one that is absent is
    passed over, provided the rest cannot be taken for it. *)
Lemma component_step o rest pre caps (k : @cont A) x :
  digits o = true ->
  (o = None -> skip_ok X rest = true) ->
  k (rev (component o X) ++ pre) rest (optcap i o X ++ caps) = Some x ->
  m false (Opt (Grp i (Seq (AtLeast 1 is_digit) (Chr X))))
    pre (component o X ++ rest) caps k = Some x.
Proof.
  intros Hd Hs Hk. destruct o as [ds|].
  - cbn [digits] in Hd. apply andb_prop in Hd. destruct Hd as [Hne Hd].
    cbn [component optcap app] in *. rewrite <- app_assoc. cbn [app].
    apply group_take; [exact Hne|exact Hd|].
    rewrite rev_app_distr in Hk. exact Hk.
  - cbn [component optcap app rev] in *. rewrite m_opt.
    rewrite group_none by (apply Hs; reflexivity). exact Hk.
Qed.
End DurationGroup.

Lemma skip_ok_component X Y o rest :
  digits o = true -> is_digit Y = false -> (Y =? X) = false ->
  (o = None -> skip_ok X rest = true) ->
  skip_ok X (component o Y ++ rest) = true.
Proof.
  intros Hd HY HXY Hs. destruct o as [ds|]; [|apply Hs; reflexivity].
  cbn [digits] in Hd. apply andb_prop in Hd. destruct Hd as [_ Hd].
  cbn [component]. rewrite <- app_assoc. unfold skip_ok.
  rewrite (dropWhile_run _ _ _ Hd). cbn [app dropWhile].
  rewrite HY, HXY. reflexivity.
Qed.

Lemma search_exec ml r pre s x :
  exec ml r pre s = Some x -> search ml r pre s = Some x.
Proof. intros H. destruct s; cbn [search]; rewrite H; reflexivity. Qed.

(** What the pattern captures on a well-formed duration. *)
Lemma js_match_iso h mi s :
  digits h = true -> digits mi = true -> digits s = true ->
  exists whole,
    js_match false re_duration (iso_duration h mi s)
    = Some (whole,
            optcap 3 s 83 ++ optcap 2 mi 77 ++ optcap 1 h 72 ++ []).
Proof.
  intros Hh Hm Hs. eexists. apply search_exec.
  unfold exec, re_duration, iso_duration. rewrite m_seq, m_str.
  rewrite starts_with_app.
  change (skipn (length (lit "PT")) (lit "PT" ++ ?x)) with x.
  rewrite m_seq.
  apply (component_step 1 72 eq_refl h); [exact Hh| |].
  { intros _. apply skip_ok_component; [exact Hm|reflexivity|reflexivity|].
    intros _. rewrite <- (app_nil_r (component s 83)).
    apply skip_ok_component; [exact Hs|reflexivity|reflexivity|].
    reflexivity. }
  cbv beta. rewrite m_seq.
  apply (component_step 2 77 eq_refl mi); [exact Hm| |].
  { intros _. rewrite <- (app_nil_r (component s 83)).
    apply skip_ok_component; [exact Hs|reflexivity|reflexivity|].
    reflexivity. }
  cbv beta. rewrite <- (app_nil_r (component s 83)) at 1.
  apply (component_step 3 83 eq_refl s); [exact Hs|reflexivity|].
  cbv beta. reflexivity.
Qed.

Lemma replace_first_unit X ds :
  forallb is_digit ds = true -> is_digit X = false ->
  replace_first [X] [] (ds ++ [X]) = ds.
Proof.
  intros Hd HX. induction ds as [|c ds IH].
  - cbn. rewrite N.eqb_refl. reflexivity.
  - cbn [forallb] in Hd. apply andb_prop in Hd. destruct Hd as [Hc Hd].
    cbn [app replace_first starts_with].
    destruct (N.eqb_spec X c) as [->|_]; [congruence|].
    cbn [andb]. rewrite (IH Hd). reflexivity.
Qed.

Lemma digit_not_space c : is_digit c = true -> is_space c = false.
Proof.
  unfold is_digit, is_space. intros H.
  apply andb_prop in H. destruct H as [H1 H2].
  apply N.leb_le in H1, H2.
  repeat match goal with
         | |- context [?a <=? ?b] => destruct (N.leb_spec a b); try lia
         | |- context [?a =? ?b] => destruct (N.eqb_spec a b); try lia
         end; reflexivity.
Qed.

Lemma dropWhile_app_keep p (x y : jsstring) :
  dropWhile p x <> [] -> dropWhile p (x ++ y) = dropWhile p x ++ y.
Proof.
  induction x as [|c x IH]; intros H; [contradiction|].
  cbn [app dropWhile] in *. destruct (p c); [apply IH, H|reflexivity].
Qed.

(** Trailing white space does not change what a text trims to. *)
Lemma trim_app_space x ws :
  forallb is_space ws = true -> trim (x ++ ws) = trim x.
Proof.
  intros Hws. destruct (dropWhile is_space x) as [|c t] eqn:E.
  - assert (Hx : forallb is_space x = true) by (apply dropWhile_nil_iff, E).
    rewrite (proj2 (trim_nil_iff x) Hx).
    apply trim_nil_iff. rewrite forallb_app, Hx, Hws. reflexivity.
  - unfold trim. rewrite dropWhile_app_keep by (rewrite E; discriminate).
    rewrite rev_app_distr.
    rewrite dropWhile_run by (apply forallb_rev_true, Hws). reflexivity.
Qed.

(** A text that neither starts nor ends with white space trims to itself. *)
Lemma trim_clean x :
  head_fails is_space x -> head_fails is_space (rev x) -> trim x = x.
Proof.
  intros H1 H2. unfold trim.
  rewrite (dropWhile_fix _ _ H1), (dropWhile_fix _ _ H2).
  apply rev_involutive.
Qed.

Lemma head_fails_digits ds y :
  truthy ds = true -> forallb is_digit ds = true ->
  head_fails is_space (ds ++ y).
Proof.
  destruct ds as [|c ds]; [discriminate|]. intros _ H.
  cbn [forallb] in H. apply andb_prop in H. destruct H as [Hc _].
  cbn [app head_fails]. apply digit_not_space, Hc.
Qed.

Lemma head_fails_rev_unit (x : jsstring) u :
  is_space u = false -> head_fails is_space (rev (x ++ [u])).
Proof. intros H. rewrite rev_app_distr. exact H. Qed.

Lemma head_fails_rev_app p (x y : jsstring) :
  y <> [] -> head_fails p (rev y) -> head_fails p (rev (x ++ y)).
Proof.
  intros Hy H. rewrite rev_app_distr.
  destruct (rev y) as [|c r] eqn:E; [|exact H].
  apply (f_equal (@rev N)) in E. rewrite rev_involutive in E. contradiction.
Qed.

Lemma head_fails_rev_cons p c (y : jsstring) :
  y <> [] -> head_fails p (rev y) -> head_fails p (rev (c :: y)).
Proof. apply (head_fails_rev_app p [c] y). Qed.

Lemma truthy_app (x y : jsstring) : truthy x = true -> truthy (x ++ y) = true.
Proof. destruct x; [discriminate|reflexivity]. Qed.

Ltac duration_normal :=
  change (lit "h ") with [104; 32]; change (lit "m ") with [109; 32];
  change (lit "s") with [115]; unfold readable; cbn [part join app];
  repeat (progress (repeat rewrite <- app_assoc; cbn [app])).

Ltac not_nil :=
  first [ discriminate
        | let H := fresh in
          intros H; apply app_eq_nil in H; destruct H; discriminate ].

Ltac ends_with_letter :=
  repeat first [ apply head_fails_rev_app; [not_nil|]
               | apply head_fails_rev_cons; [not_nil|] ];
  reflexivity.

(** X13.  On every duration made of [PT] followed by hours, minutes and
    seconds, each optional and each a non-empty run of digits with its
    unit letter, the formatter returns the components that are present,
    in that order, with lower-case units and separated by single spaces;
    [PT] alone is returned as it is. *)
Theorem formatDuration_iso :
  forall h mi s,
    digits h = true -> digits mi = true -> digits s = true ->
    formatDuration (Some (iso_duration h mi s))
    = match h, mi, s with
      | None, None, None => lit "PT"
      | _, _, _ => readable h mi s
      end.
Proof.
  intros h mi s Hh Hm Hs.
  destruct (js_match_iso h mi s Hh Hm Hs) as [whole Hj].
  unfold formatDuration.
  assert (Ht : truthy (iso_duration h mi s) = true) by reflexivity.
  rewrite Ht, Hj. cbn [negb]. cbv zeta.
  change (lit "H") with [72]. change (lit "M") with [77].
  change (lit "S") with [83].
  destruct h as [dh|], mi as [dm|], s as [ds|];
    cbn [optcap app cap Nat.eqb or_empty];
    cbn [digits] in Hh, Hm, Hs;
    repeat match goal with
           | H : _ && _ = true |- _ => apply andb_prop in H; destruct H
           end;
    repeat rewrite replace_first_unit by (assumption || reflexivity);
    cbn [replace_first starts_with truthy];
    repeat match goal with
           | H : truthy ?d = true |- context [truthy ?d] => rewrite H
           end;
    try (vm_compute; reflexivity).
  all: match goal with
       | |- (if truthy (trim ?R) then _ else _) = ?rd =>
         assert (E : trim R = rd);
           [|rewrite E; unfold readable; cbn [part join app];
             rewrite truthy_app by
               (first [assumption|apply truthy_app; assumption]);
             reflexivity]
       end.
  all: first
         [ transitivity (trim (readable (Some dh) (Some dm) (Some ds)))
         | transitivity (trim (readable (Some dh) None (Some ds)))
         | transitivity (trim (readable None (Some dm) (Some ds)))
         | transitivity (trim (readable None None (Some ds)))
         | transitivity (trim (readable (Some dh) (Some dm) None ++ [32]))
         | transitivity (trim (readable (Some dh) None None ++ [32]))
         | transitivity (trim (readable None (Some dm) None ++ [32])) ];
    [f_equal; duration_normal; reflexivity|];
    rewrite ?trim_app_space by reflexivity;
    apply trim_clean; duration_normal;
    [apply head_fails_digits; assumption|ends_with_letter].
Qed.

Lemma formatDuration_iso_witness :
  digits (Some (lit "12")) = true /\ digits None = true /\
  digits (Some (lit "5")) = true /\
  formatDuration (Some (iso_duration (Some (lit "12")) None (Some (lit "5"))))
  = readable (Some (lit "12")) None (Some (lit "5")).
Proof.
  split; [reflexivity|]. split; [reflexivity|]. split; [reflexivity|].
  apply (formatDuration_iso (Some (lit "12")) None (Some (lit "5")));
    reflexivity.
Defined.

(** The witness in plain text. *)
Example formatDuration_iso_text :
  iso_duration (Some (lit "12")) None (Some (lit "5")) = lit "PT12H5S" /\
  readable (Some (lit "12")) None (Some (lit "5")) = lit "12h 5s".
Proof. split; vm_compute; reflexivity. Qed.

(** ** The formatting cleanup: what the result looks like *)

(** X14.  The cleaned text never starts or ends with white space, and
    trimming it again changes nothing. *)
Theorem cleanFormatting_trimmed :
  forall x,
    head_fails is_space (cleanFormatting x) /\
    head_fails is_space (rev (cleanFormatting x)) /\
    trim (cleanFormatting x) = cleanFormatting x.
Proof.
  intros x. unfold cleanFormatting.
  set (y := boldHeaders _).
  destruct (trim_split y) as (a & b & _ & _ & Hy & Hz).
  split; [|split].
  - apply (head_fails_prefix _ _ b). rewrite <- Hy. apply dropWhile_head.
  - rewrite Hz. apply dropWhile_head.
  - apply trim_idem.
Qed.

(** *** The newline rule *)

Lemma skip_matched ml r f w : forall s pre,
  replace_g ml r f pre (w ++ s) (length w)
  = replace_g ml r f (rev w ++ pre) s O.
Proof.
  induction w as [|c w IH]; intros s pre; [reflexivity|].
  cbn [app length rev]. rewrite <- app_assoc.
  destruct s; cbn [replace_g app]; apply IH.
Qed.

Lemma starts_NL3_lead x : starts_with NL3 x = true <-> (3 <= lead x)%nat.
Proof.
  unfold NL3, lead.
  destruct x as [|a [|b [|c t]]]; cbn [starts_with takeWhile length];
    rewrite ?(N.eqb_sym LF);
    repeat match goal with
           | |- context [?u =? LF] => destruct (u =? LF)
           end;
    cbn [andb takeWhile length]; split; intros H; try discriminate;
    try reflexivity; try lia.
Qed.

Lemma newlines_none pre s :
  starts_with NL3 s = false -> exec false re_newlines pre s = None.
Proof.
  intros H. unfold exec, re_newlines. cbn [atleast m].
  unfold NL3 in H. cbn [starts_with] in H.
  destruct s as [|a s]; [reflexivity|].
  rewrite (N.eqb_sym a LF). destruct (LF =? a); [|reflexivity].
  destruct s as [|b s]; [reflexivity|].
  rewrite (N.eqb_sym b LF). destruct (LF =? b); [|reflexivity].
  destruct s as [|c s]; [reflexivity|].
  rewrite (N.eqb_sym c LF). cbn [andb] in H.
  rewrite andb_true_r in H. rewrite H. reflexivity.
Qed.

Lemma newlines_match pre t :
  exec false re_newlines pre (LF :: LF :: LF :: t)
  = Some (LF :: LF :: LF :: takeWhile (fun c => c =? LF) t, []).
Proof.
  unfold exec, re_newlines. cbn [atleast m]. rewrite N.eqb_refl.
  rewrite star_final. f_equal. f_equal.
  rewrite <- (take_drop_while (fun c => c =? LF) t) at 1.
  apply (consumed_app (LF :: LF :: LF :: takeWhile _ t)).
Qed.

(** A run of three or more newlines is replaced by two, and the walk goes
    on behind the run. *)
Lemma cleanNewlines_run f pre t :
  exists pre',
    replace_g false re_newlines (fun _ _ => f) pre (LF :: LF :: LF :: t) O
    = f ++ replace_g false re_newlines (fun _ _ => f) pre'
             (dropWhile (fun c => c =? LF) t) O.
Proof.
  eexists. cbn [replace_g]. rewrite newlines_match. cbn [length].
  rewrite <- (take_drop_while (fun c => c =? LF) t) at 1.
  change (LF :: LF :: takeWhile (fun c => c =? LF) t ++ ?r)
    with ((LF :: LF :: takeWhile (fun c => c =? LF) t) ++ r).
  replace (S (S (length (takeWhile (fun c : N => c =? LF) t))))
    with (length (LF :: LF :: takeWhile (fun c => c =? LF) t))
    by reflexivity.
  rewrite skip_matched. reflexivity.
Qed.

Lemma lead_dropWhile t : lead (dropWhile (fun c => c =? LF) t) = O.
Proof.
  unfold lead. pose proof (dropWhile_head (fun c => c =? LF) t) as H.
  destruct (dropWhile _ t) as [|c r]; [reflexivity|].
  cbn [head_fails] in H. cbn [takeWhile]. rewrite H. reflexivity.
Qed.

Lemma length_dropWhile p (t : jsstring) :
  (length (dropWhile p t) <= length t)%nat.
Proof.
  induction t as [|c t IH]; cbn [dropWhile]; [lia|].
  destruct (p c); cbn [length]; lia.
Qed.

Lemma includes_NL3_cons c x :
  includes NL3 (c :: x) = false <->
  (lead (c :: x) < 3)%nat /\ includes NL3 x = false.
Proof.
  unfold includes. cbn [anywhere]. rewrite orb_false_iff.
  pose proof (starts_NL3_lead (c :: x)) as H.
  destruct (starts_with NL3 (c :: x)).
  - split; intros [H1 H2]; [discriminate|].
    exfalso. assert (3 <= lead (c :: x))%nat by (apply H; reflexivity). lia.
  - split; intros [H1 H2]; split; auto.
    destruct (Nat.lt_ge_cases (lead (c :: x)) 3) as [Hlt|Hge]; [exact Hlt|].
    apply H in Hge. discriminate.
Qed.

Lemma cleanNewlines_bounded : forall n s pre,
  (length s <= n)%nat ->
  includes NL3 (replace_g false re_newlines (fun _ _ => [LF; LF]) pre s O)
  = false /\
  (lead (replace_g false re_newlines (fun _ _ => [LF; LF]) pre s O)
   <= Nat.min 2 (lead s))%nat.
Proof.
  induction n as [|n IH]; intros s pre Hn.
  - destruct s; [|cbn in Hn; lia]. cbn. split; [reflexivity|lia].
  - destruct (starts_with NL3 s) eqn:E.
    + pose proof (proj1 (starts_NL3_lead s) E) as Hl.
      apply starts_with_split in E. unfold NL3 in E. cbn [length skipn app] in E.
      destruct s as [|a [|b [|c t]]]; try discriminate.
      injection E as -> -> ->.
      destruct (cleanNewlines_run [LF; LF] pre t) as [pre' ->].
      destruct (IH (dropWhile (fun c => c =? LF) t) pre') as [H1 H2].
      { pose proof (length_dropWhile (fun c => c =? LF) t).
        cbn [length] in Hn. lia. }
      rewrite lead_dropWhile in H2.
      set (out := replace_g _ _ _ _ _ _) in *.
      assert (Hout : lead ([LF; LF] ++ out) = 2%nat).
      { unfold lead in *. cbn [app takeWhile]. rewrite N.eqb_refl.
        cbn [length]. lia. }
      split.
      * cbn [app] in *. apply includes_NL3_cons. split; [lia|].
        apply includes_NL3_cons. split; [|exact H1].
        unfold lead in *. cbn [takeWhile length] in *.
        rewrite N.eqb_refl in *. cbn [length] in *. lia.
      * lia.
    + destruct s as [|c t]; [cbn; split; [reflexivity|lia]|].
      cbn [replace_g]. rewrite (newlines_none _ _ E).
      destruct (IH t (c :: pre)) as [H1 H2]; [cbn [length] in Hn; lia|].
      set (out := replace_g _ _ _ _ _ _) in *.
      assert (Hs : (lead (c :: t) < 3)%nat).
      { destruct (Nat.lt_ge_cases (lead (c :: t)) 3) as [Hlt|Hge]; [exact Hlt|].
        apply starts_NL3_lead in Hge. congruence. }
      assert (Hc : (lead (c :: out) <= Nat.min 2 (lead (c :: t)))%nat).
      { unfold lead in *. cbn [takeWhile] in *.
        destruct (c =? LF); cbn [length] in *; lia. }
      split; [|exact Hc].
      apply includes_NL3_cons. split; [lia|exact H1].
Qed.

(** X15.  After the newline rule no three consecutive newlines are left,
    whatever the text. *)
Theorem cleanNewlines_no_triple :
  forall x, includes NL3 (cleanNewlines x) = false.
Proof.
  intros x. apply (cleanNewlines_bounded (length x) x []). lia.
Qed.

(** *** Blank text *)

Lemma replace_g_forallb ml r f (P : N -> bool) :
  (forall w caps, forallb P (f w caps) = true) ->
  forall s pre n,
    forallb P s = true -> forallb P (replace_g ml r f pre s n) = true.
Proof.
  intros Hf. induction s as [|c t IH]; intros pre n Hs.
  - destruct n; cbn [replace_g]; [|reflexivity].
    destruct (exec ml r pre []) as [[w caps]|]; [|reflexivity].
    rewrite app_nil_r. apply Hf.
  - cbn [forallb] in Hs. apply andb_prop in Hs. destruct Hs as [Hc Ht].
    destruct n; cbn [replace_g]; [|apply IH, Ht].
    destruct (exec ml r pre (c :: t)) as [[w caps]|].
    + rewrite forallb_app, Hf.
      destruct (length w); cbn [forallb andb]; rewrite ?Hc; apply IH, Ht.
    + cbn [forallb]. rewrite Hc. apply IH, Ht.
Qed.

(** A test that needs a character outside the class [p] first fails
    everywhere in a text made of [p] only. *)
Lemma anywhere_class P p (x : jsstring) :
  (forall c t, p c = true -> P (c :: t) = false) -> P [] = false ->
  forallb p x = true -> anywhere P x = false.
Proof.
  intros HP Hnil. induction x as [|c t IH]; intros H; cbn [anywhere].
  - rewrite Hnil. reflexivity.
  - cbn [forallb] in H. apply andb_prop in H. destruct H as [Hc Ht].
    rewrite (HP c t Hc), (IH Ht). reflexivity.
Qed.

Lemma space_not_star c : is_space c = true -> (STAR =? c) = false.
Proof.
  intros H. destruct (N.eqb_spec STAR c) as [<-|]; [discriminate|reflexivity].
Qed.

Lemma space_not_colon c : is_space c = true -> (c =? 58) = false.
Proof.
  intros H. destruct (N.eqb_spec c 58) as [->|]; [discriminate|reflexivity].
Qed.

Lemma space_not_digit c : is_space c = true -> is_digit c = false.
Proof.
  intros H. destruct (is_digit c) eqn:E; [|reflexivity].
  apply digit_not_space in E. congruence.
Qed.

(** X16.  A text made of white space only is cleaned to the empty text. *)
Theorem cleanFormatting_blank :
  forall x, forallb is_space x = true -> cleanFormatting x = [].
Proof.
  intros x Hx. unfold cleanFormatting.
  rewrite fixQuadAsterisks_id.
  2:{ apply (anywhere_class _ is_space); [|reflexivity|exact Hx].
      intros c t Hc. unfold QUAD. cbn [starts_with].
      rewrite (space_not_star c Hc). reflexivity. }
  rewrite formatNumberedLists_id.
  2:{ apply (anywhere_class _ is_space); [|reflexivity|exact Hx].
      intros c t Hc. unfold digit_dot_at. destruct t; [reflexivity|].
      rewrite (space_not_digit c Hc). reflexivity. }
  assert (Hy : forallb is_space (cleanNewlines x) = true).
  { apply replace_g_forallb; [reflexivity|exact Hx]. }
  rewrite boldHeaders_id.
  2:{ apply (anywhere_class _ is_space); [|reflexivity|exact Hy].
      intros c t Hc. unfold colon_end_at.
      rewrite (space_not_colon c Hc). reflexivity. }
  apply trim_nil_iff, Hy.
Qed.

Lemma cleanFormatting_blank_witness :
  cleanFormatting ([LF; LF; LF; LF] ++ lit "   ") = [].
Proof. apply cleanFormatting_blank. vm_compute. reflexivity. Defined.

(** *** The numbered-list rule *)

Lemma star_pre {A} p : forall s pre pre' caps (k k' : @cont A),
  (forall a a' s' c, k a s' c = k' a' s' c) ->
  star p pre s caps k = star p pre' s caps k'.
Proof.
  induction s as [|c t IH]; intros pre pre' caps k k' Hk; cbn [star].
  - apply Hk.
  - destruct (p c); [|apply Hk].
    rewrite (IH (c :: pre) (c :: pre') caps k k' Hk), (Hk pre pre').
    reflexivity.
Qed.

Lemma atleast_pre {A} p : forall n s pre pre' caps (k k' : @cont A),
  (forall a a' s' c, k a s' c = k' a' s' c) ->
  atleast n p pre s caps k = atleast n p pre' s caps k'.
Proof.
  induction n as [|n IH]; intros s pre pre' caps k k' Hk; cbn [atleast].
  - apply star_pre, Hk.
  - destruct s as [|c t]; [reflexivity|].
    destruct (p c); [apply IH, Hk|reflexivity].
Qed.

(** A pattern without anchors does not look at what stands before the
    position it is tried at. *)
Lemma m_pre {A} ml r :
  anchor_free r = true ->
  forall pre pre' s caps (k k' : @cont A),
    (forall a a' s' c, k a s' c = k' a' s' c) ->
    m ml r pre s caps k = m ml r pre' s caps k'.
Proof.
  induction r as [|c|p|r1 IH1 r2 IH2|r1 IH1 r2 IH2|p|n p|r1 IH1|i r1 IH1| |];
    intros Hr pre pre' s caps k k' Hk; cbn [m]; cbn [anchor_free] in Hr;
    try discriminate.
  - apply Hk.
  - destruct s as [|y t]; [reflexivity|]. destruct (y =? c); [apply Hk|auto].
  - destruct s as [|y t]; [reflexivity|]. destruct (p y); [apply Hk|auto].
  - apply andb_prop in Hr. destruct Hr as [H1 H2].
    apply (IH1 H1). intros a a' s' c. apply (IH2 H2), Hk.
  - apply andb_prop in Hr. destruct Hr as [H1 H2].
    rewrite (IH1 H1 pre pre' s caps k k' Hk), (IH2 H2 pre pre' s caps k k' Hk).
    reflexivity.
  - apply star_pre, Hk.
  - apply atleast_pre, Hk.
  - rewrite (IH1 Hr pre pre' s caps k k' Hk), (Hk pre pre'). reflexivity.
  - apply (IH1 Hr). intros a a' s' c. apply Hk.
Qed.

Lemma replace_g_pre ml r f :
  anchor_free r = true ->
  forall s pre pre' n,
    replace_g ml r f pre s n = replace_g ml r f pre' s n.
Proof.
  intros Hr.
  assert (He : forall s pre pre', exec ml r pre s = exec ml r pre' s).
  { intros s pre pre'. unfold exec. apply (m_pre ml r Hr). reflexivity. }
  induction s as [|c t IH]; intros pre pre' n; destruct n; cbn [replace_g];
    rewrite ?(He _ pre pre'); try reflexivity.
  - destruct (exec ml r pre' (c :: t)) as [[w caps]|].
    + destruct (length w); rewrite (IH (c :: pre) (c :: pre')); reflexivity.
    + rewrite (IH (c :: pre) (c :: pre')). reflexivity.
  - apply IH.
Qed.

Lemma numbered_none pre s :
  head_fails is_digit s -> exec false re_numbered pre s = None.
Proof.
  intros H. unfold exec, re_numbered. rewrite m_seq, m_grp, m_plus.
  destruct s as [|c t]; [reflexivity|]. cbn [head_fails] in H.
  rewrite H. reflexivity.
Qed.

Lemma numbered_match pre ds ws rest :
  truthy ds = true -> forallb is_digit ds = true ->
  forallb is_space ws = true -> head_fails is_space rest ->
  exec false re_numbered pre (ds ++ 46 :: ws ++ rest)
  = Some (ds ++ 46 :: ws, [(1%nat, ds)]).
Proof.
  intros Hne Hd Hws Hrest. unfold exec, re_numbered.
  rewrite m_seq, m_grp, m_plus.
  destruct ds as [|d ds]; [discriminate|].
  cbn [forallb] in Hd. apply andb_prop in Hd. destruct Hd as [Hd Hds].
  cbn [app]. rewrite Hd. apply star_greedy.
  rewrite (takeWhile_run _ _ _ Hds), (dropWhile_run _ _ _ Hds).
  cbn [takeWhile dropWhile].
  change (is_digit 46) with false. cbv iota. rewrite app_nil_r.
  rewrite m_seq, m_chr, N.eqb_refl. cbn [m]. rewrite star_final.
  rewrite (dropWhile_run _ _ _ Hws), (dropWhile_fix _ _ Hrest).
  f_equal. f_equal.
  - change (d :: ds ++ 46 :: ws ++ rest) with ((d :: ds) ++ 46 :: ws ++ rest).
    replace ((d :: ds) ++ 46 :: ws ++ rest)
      with (((d :: ds) ++ 46 :: ws) ++ rest)
      by (rewrite <- app_assoc; reflexivity).
    apply consumed_app.
  - f_equal. f_equal.
    apply (consumed_app (d :: ds) (46 :: ws ++ rest)).
Qed.

Lemma copy_nondigits f a : forall s pre,
  forallb (fun c => negb (is_digit c)) a = true ->
  replace_g false re_numbered f pre (a ++ s) O
  = a ++ replace_g false re_numbered f (rev a ++ pre) s O.
Proof.
  induction a as [|c a IH]; intros s pre H; [reflexivity|].
  cbn [forallb] in H. apply andb_prop in H. destruct H as [Hc Ha].
  apply negb_true_iff in Hc.
  cbn [app replace_g]. rewrite numbered_none by exact Hc.
  rewrite (IH s (c :: pre) Ha). cbn [rev]. rewrite <- app_assoc.
  reflexivity.
Qed.

(** X17.  Wherever it stands, the first run of digits of a text that is
    directly followed by a period is rewritten: in a text made of a part
    without digits, a run of digits, a period, white space and a rest that
    does not start with white space, the digits and the period are put
    between two newlines with two asterisks and two asterisks with one
    space, the white space is dropped, and the rule goes on with the
    rest. *)
Theorem formatNumberedLists_item :
  forall a ds ws rest,
    forallb (fun c => negb (is_digit c)) a = true ->
    truthy ds = true -> forallb is_digit ds = true ->
    forallb is_space ws = true -> head_fails is_space rest ->
    formatNumberedLists (a ++ ds ++ 46 :: ws ++ rest)
    = a ++ [LF; LF; STAR; STAR] ++ ds ++ lit ".** " ++
      formatNumberedLists rest.
Proof.
  intros a ds ws rest Ha Hne Hd Hws Hrest.
  unfold formatNumberedLists, js_replace_g.
  rewrite (copy_nondigits _ a _ _ Ha). f_equal.
  assert (Hm := numbered_match (rev a ++ []) ds ws rest Hne Hd Hws Hrest).
  destruct ds as [|d ds]; [discriminate|].
  cbn [app] in Hm |- *. cbn [replace_g]. rewrite Hm.
  cbn [cap Nat.eqb or_empty length app].
  do 4 f_equal. rewrite <- app_assoc. do 2 f_equal.
  replace (ds ++ 46 :: ws ++ rest) with ((ds ++ 46 :: ws) ++ rest)
    by (rewrite <- app_assoc; reflexivity).
  rewrite skip_matched. f_equal. apply replace_g_pre. reflexivity.
Qed.

Lemma formatNumberedLists_item_witness :
  formatNumberedLists (lit "Pi is " ++ lit "3" ++ 46 :: [] ++ lit "14")
  = lit "Pi is " ++ [LF; LF; STAR; STAR] ++ lit "3" ++ lit ".** " ++
    formatNumberedLists (lit "14").
Proof.
  apply formatNumberedLists_item; try reflexivity.
Defined.

(** *** The header rule, line by line *)

Lemma star_bol {A} ml p : forall s pre pre' caps (k k' : @cont A),
  at_bol ml pre = at_bol ml pre' ->
  (forall a a' s' c, at_bol ml a = at_bol ml a' -> k a s' c = k' a' s' c) ->
  star p pre s caps k = star p pre' s caps k'.
Proof.
  induction s as [|c t IH]; intros pre pre' caps k k' Hb Hk; cbn [star].
  - apply Hk, Hb.
  - destruct (p c); [|apply Hk, Hb].
    rewrite (IH (c :: pre) (c :: pre') caps k k' eq_refl Hk),
      (Hk pre pre' _ _ Hb).
    reflexivity.
Qed.

Lemma atleast_bol {A} ml p : forall n s pre pre' caps (k k' : @cont A),
  at_bol ml pre = at_bol ml pre' ->
  (forall a a' s' c, at_bol ml a = at_bol ml a' -> k a s' c = k' a' s' c) ->
  atleast n p pre s caps k = atleast n p pre' s caps k'.
Proof.
  induction n as [|n IH]; intros s pre pre' caps k k' Hb Hk; cbn [atleast].
  - apply (star_bol ml); assumption.
  - destruct s as [|c t]; [reflexivity|].
    destruct (p c); [apply IH; [reflexivity|exact Hk]|reflexivity].
Qed.

(** Of what stands before a position, a pattern sees only whether the
    position starts a line. *)
Lemma m_bol_only {A} ml r :
  forall pre pre' s caps (k k' : @cont A),
    at_bol ml pre = at_bol ml pre' ->
    (forall a a' s' c, at_bol ml a = at_bol ml a' -> k a s' c = k' a' s' c) ->
    m ml r pre s caps k = m ml r pre' s caps k'.
Proof.
  induction r as [|c|p|r1 IH1 r2 IH2|r1 IH1 r2 IH2|p|n p|r1 IH1|i r1 IH1| |];
    intros pre pre' s caps k k' Hb Hk; cbn [m].
  - apply Hk, Hb.
  - destruct s as [|y t]; [reflexivity|].
    destruct (y =? c); [apply Hk|]; reflexivity.
  - destruct s as [|y t]; [reflexivity|].
    destruct (p y); [apply Hk|]; reflexivity.
  - apply (IH1 _ _ _ _ _ _ Hb). intros a a' s' c Ha. apply (IH2 _ _ _ _ _ _ Ha Hk).
  - rewrite (IH1 pre pre' s caps k k' Hb Hk), (IH2 pre pre' s caps k k' Hb Hk).
    reflexivity.
  - apply (star_bol ml); assumption.
  - apply (atleast_bol ml); assumption.
  - rewrite (IH1 pre pre' s caps k k' Hb Hk), (Hk pre pre' _ _ Hb).
    reflexivity.
  - apply (IH1 _ _ _ _ _ _ Hb). intros a a' s' c Ha. apply Hk, Ha.
  - rewrite Hb, (Hk pre pre' _ _ Hb). reflexivity.
  - rewrite (Hk pre pre' _ _ Hb). reflexivity.
Qed.

Lemma replace_g_bol ml r f :
  forall s pre pre' n,
    at_bol ml pre = at_bol ml pre' ->
    replace_g ml r f pre s n = replace_g ml r f pre' s n.
Proof.
  assert (He : forall s pre pre', at_bol ml pre = at_bol ml pre' ->
                                  exec ml r pre s = exec ml r pre' s).
  { intros s pre pre' Hb. unfold exec. apply (m_bol_only ml r); [exact Hb|].
    reflexivity. }
  induction s as [|c t IH]; intros pre pre' n Hb; destruct n; cbn [replace_g];
    rewrite ?(He _ pre pre' Hb); try reflexivity.
  - destruct (exec ml r pre' (c :: t)) as [[w caps]|].
    + destruct (length w); rewrite (IH (c :: pre) (c :: pre')); reflexivity.
    + rewrite (IH (c :: pre) (c :: pre')); reflexivity.
  - apply IH. reflexivity.
Qed.

Lemma is_header_split L :
  is_header L = true -> exists c w, L = (c :: w) ++ [58].
Proof.
  unfold is_header. intros H.
  destruct (rev L) as [|x [|y r]] eqn:E; try discriminate.
  apply N.eqb_eq in H. subst x.
  apply (f_equal (@rev N)) in E. rewrite rev_involutive in E.
  change (58 :: y :: r) with ([58] ++ y :: r) in E.
  rewrite rev_app_distr in E. cbn [rev app] in E.
  destruct (rev r ++ [y]) as [|c w] eqn:E2.
  - apply app_eq_nil in E2. destruct E2; discriminate.
  - exists c, w. exact E.
Qed.

Lemma is_header_snoc c w : is_header ((c :: w) ++ [58]) = true.
Proof.
  unfold is_header. rewrite rev_app_distr. cbn [rev app].
  destruct (rev w); reflexivity.
Qed.

Lemma terminator_not_dot t : is_line_terminator t = true -> dot t = false.
Proof. unfold dot. intros ->. reflexivity. Qed.

Lemma header_tail_none {A} pre rest caps (k : @cont A) :
  at_eol true rest = true ->
  m true (Seq (Chr 58) Eol) pre rest caps k = None.
Proof.
  intros H. rewrite m_seq, m_chr. destruct rest as [|t r]; [reflexivity|].
  cbn [at_eol andb] in H.
  destruct (N.eqb_spec t 58) as [->|_]; [discriminate|reflexivity].
Qed.

Lemma header_exec pre L rest :
  at_bol true pre = true -> truthy L = true -> forallb dot L = true ->
  at_eol true rest = true ->
  exec true re_header pre (L ++ 58 :: rest) = Some (L ++ [58], [(1%nat, L)]).
Proof.
  intros Hb Hne Hd He. unfold exec, re_header.
  rewrite m_seq, m_bol, Hb, m_seq, m_grp, m_plus.
  destruct L as [|c w]; [discriminate|].
  cbn [forallb] in Hd. apply andb_prop in Hd. destruct Hd as [Hc Hw].
  cbn [app]. rewrite Hc.
  apply star_last; [exact Hw| |].
  - rewrite m_seq, m_chr, N.eqb_refl. cbn [m]. rewrite He.
    f_equal. f_equal.
    + replace (c :: w ++ 58 :: rest) with (((c :: w) ++ [58]) ++ rest)
        by (rewrite <- app_assoc; reflexivity).
      apply consumed_app.
    + f_equal. f_equal. apply (consumed_app (c :: w) (58 :: rest)).
  - intros w2 s2 E Hne2 Hw2.
    destruct w2 as [|x w2]; [contradiction|].
    injection E as <- E. cbn [forallb] in Hw2.
    apply andb_prop in Hw2. destruct Hw2 as [_ Hw2].
    destruct w2 as [|y w2].
    + cbn [app] in E. subst s2. apply header_tail_none, He.
    + subst rest. cbn [app at_eol andb] in He.
      cbn [forallb] in Hw2. apply andb_prop in Hw2. destruct Hw2 as [Hy _].
      rewrite (terminator_not_dot y He) in Hy. discriminate.
Qed.

(** A split of a line and what follows it, taken inside the line. *)
Lemma split_in_line w1 : forall w rest s1,
  w ++ rest = w1 ++ s1 -> forallb dot w1 = true -> at_eol true rest = true ->
  exists w3, w = w1 ++ w3 /\ s1 = w3 ++ rest.
Proof.
  induction w1 as [|x w1 IH]; intros w rest s1 E Hw1 He.
  - exists w. split; [reflexivity|]. symmetry. exact E.
  - cbn [forallb] in Hw1. apply andb_prop in Hw1. destruct Hw1 as [Hx Hw1].
    destruct w as [|y w].
    + cbn [app] in E. subst rest. cbn [at_eol andb] in He.
      rewrite (terminator_not_dot x He) in Hx. discriminate.
    + injection E as -> E. destruct (IH w rest s1 E Hw1 He) as (w3 & -> & ->).
      exists w3. split; reflexivity.
Qed.

Lemma nonheader_exec pre L rest :
  forallb dot L = true -> is_header L = false -> at_eol true rest = true ->
  exec true re_header pre (L ++ rest) = None.
Proof.
  intros Hd Hh He. unfold exec, re_header. rewrite m_seq, m_bol.
  destruct (at_bol true pre); [|reflexivity].
  rewrite m_seq, m_grp, m_plus.
  destruct L as [|c w].
  - destruct rest as [|t r]; [reflexivity|]. cbn [at_eol andb] in He.
    cbn [app]. rewrite (terminator_not_dot t He). reflexivity.
  - cbn [forallb] in Hd. apply andb_prop in Hd. destruct Hd as [Hc Hw].
    cbn [app]. rewrite Hc. apply star_none. intros w1 s1 E Hw1.
    destruct (split_in_line w1 w rest s1 E Hw1 He) as (w3 & -> & ->).
    destruct w3 as [|y w4]; [apply header_tail_none, He|].
    rewrite m_seq, m_chr. cbn [app].
    destruct (N.eqb_spec y 58) as [->|_]; [|reflexivity].
    cbn [m]. destruct w4 as [|z w4].
    + exfalso. change (c :: w1 ++ [58]) with ((c :: w1) ++ [58]) in Hh.
      rewrite (is_header_snoc c w1) in Hh. discriminate.
    + rewrite forallb_app in Hw. apply andb_prop in Hw. destruct Hw as [_ Hw].
      cbn [forallb] in Hw. apply andb_prop in Hw. destruct Hw as [_ Hw].
      apply andb_prop in Hw. destruct Hw as [Hz _].
      cbn [app at_eol andb]. unfold dot in Hz.
      apply negb_true_iff in Hz. rewrite Hz. reflexivity.
Qed.

Section HeaderWalk.
Variable f : jsstring -> captures -> jsstring.

Lemma header_copy_mid L : forall rest pre,
  at_bol true pre = false -> forallb dot L = true ->
  replace_g true re_header f pre (L ++ rest) O
  = L ++ replace_g true re_header f (rev L ++ pre) rest O.
Proof.
  induction L as [|c L IH]; intros rest pre Hb Hd; [reflexivity|].
  cbn [forallb] in Hd. apply andb_prop in Hd. destruct Hd as [Hc Hd].
  cbn [app replace_g].
  assert (E : exec true re_header pre (c :: L ++ rest) = None).
  { unfold exec, re_header. rewrite m_seq, m_bol, Hb. reflexivity. }
  rewrite E. f_equal. rewrite IH; [|cbn [at_bol andb]|exact Hd].
  - cbn [rev]. rewrite <- app_assoc. reflexivity.
  - unfold dot in Hc. apply negb_true_iff in Hc. exact Hc.
Qed.

Lemma header_at_terminator t rest pre :
  is_line_terminator t = true ->
  replace_g true re_header f pre (t :: rest) O
  = t :: replace_g true re_header f [] rest O.
Proof.
  intros Ht. cbn [replace_g].
  assert (E : exec true re_header pre (t :: rest) = None).
  { apply (nonheader_exec pre [] (t :: rest) eq_refl eq_refl).
    cbn [at_eol andb]. exact Ht. }
  rewrite E. f_equal. apply replace_g_bol. cbn [at_bol andb]. exact Ht.
Qed.

Lemma header_at_end pre : replace_g true re_header f pre [] O = [].
Proof.
  cbn [replace_g].
  assert (E : exec true re_header pre [] = None)
    by apply (nonheader_exec pre [] [] eq_refl eq_refl eq_refl).
  rewrite E. reflexivity.
Qed.
End HeaderWalk.

Lemma header_line_walk L rest pre :
  at_bol true pre = true -> forallb dot L = true -> at_eol true rest = true ->
  replace_g true re_header
    (fun _ caps => [STAR; STAR] ++ or_empty (cap 1 caps) ++ lit ":**")
    pre (L ++ rest) O
  = bold_line L ++
    replace_g true re_header
      (fun _ caps => [STAR; STAR] ++ or_empty (cap 1 caps) ++ lit ":**")
      (rev L ++ pre) rest O.
Proof.
  intros Hb Hd He. unfold bold_line. destruct (is_header L) eqn:Hh.
  - destruct (is_header_split L Hh) as (c & w & ->).
    rewrite forallb_app in Hd. apply andb_prop in Hd. destruct Hd as [Hd _].
    assert (Hm := header_exec pre (c :: w) rest Hb eq_refl Hd He).
    rewrite <- app_assoc. cbn [app] in Hm |- *. cbn [replace_g].
    rewrite Hm. cbn [cap Nat.eqb or_empty length app].
    change (lit ":**") with [58; STAR; STAR].
    do 3 f_equal. rewrite <- !app_assoc. f_equal. cbn [app]. do 3 f_equal.
    replace (w ++ 58 :: rest) with ((w ++ [58]) ++ rest)
      by (rewrite <- app_assoc; reflexivity).
    rewrite skip_matched. f_equal. cbn [rev]. rewrite <- app_assoc.
    reflexivity.
  - destruct L as [|c w]; [reflexivity|].
    cbn [forallb] in Hd. apply andb_prop in Hd. destruct Hd as [Hc Hw].
    assert (E := nonheader_exec pre (c :: w) rest).
    cbn [forallb app] in E. rewrite Hc, Hw in E.
    cbn [app replace_g]. rewrite (E eq_refl Hh He). f_equal.
    rewrite header_copy_mid; [|cbn [at_bol andb]|exact Hw].
    + cbn [rev]. rewrite <- app_assoc. reflexivity.
    + unfold dot in Hc. apply negb_true_iff in Hc. exact Hc.
Qed.

(** X18.  The header rule works line by line: a line that ends with a
    colon and has at least one character before it is put between two
    pairs of asterisks, every other line is kept, the line terminators are
    kept, and the rest of the text is treated in the same way. *)
Theorem boldHeaders_by_line :
  forall L,
    forallb dot L = true ->
    boldHeaders L = bold_line L /\
    forall t rest,
      is_line_terminator t = true ->
      boldHeaders (L ++ t :: rest) = bold_line L ++ t :: boldHeaders rest.
Proof.
  intros L Hd. unfold boldHeaders, js_replace_g. split.
  - rewrite <- (app_nil_r L) at 1.
    rewrite (header_line_walk L [] [] eq_refl Hd eq_refl).
    rewrite header_at_end. apply app_nil_r.
  - intros t rest Ht.
    rewrite (header_line_walk L (t :: rest) [] eq_refl Hd)
      by (cbn [at_eol andb]; exact Ht).
    rewrite (header_at_terminator _ t rest _ Ht). reflexivity.
Qed.

Lemma boldHeaders_by_line_witness :
  boldHeaders (lit "Key points:" ++ LF :: lit "first")
  = bold_line (lit "Key points:") ++ LF :: boldHeaders (lit "first").
Proof.
  apply (proj2 (boldHeaders_by_line (lit "Key points:") eq_refl)).
  reflexivity.
Defined.

(** *** The asterisk rule and the other characters *)

Lemma quad_none pre c t :
  (c =? STAR) = false -> exec false re_quad pre (c :: t) = None.
Proof.
  intros H. unfold exec, re_quad. rewrite m_str. cbn [starts_with].
  rewrite N.eqb_sym, H. reflexivity.
Qed.

Lemma quad_match pre rest :
  exec false re_quad pre (QUAD ++ rest) = Some (QUAD, []).
Proof.
  unfold exec, re_quad. rewrite m_str. fold QUAD.
  rewrite starts_with_app. f_equal. f_equal.
  change (skipn (length QUAD) (QUAD ++ rest)) with rest.
  apply consumed_app.
Qed.

Lemma quad_walk f a rest :
  forallb (fun c => negb (c =? STAR)) a = true ->
  forall pre,
    replace_g false re_quad f pre (a ++ QUAD ++ rest) O
    = a ++ f QUAD [] ++ replace_g false re_quad f [] rest O.
Proof.
  induction a as [|c a IH]; intros Ha pre.
  - assert (Hm := quad_match pre rest).
    cbn [app QUAD] in Hm |- *. cbn [replace_g]. rewrite Hm.
    cbn [length]. f_equal.
    change (replace_g false re_quad f (STAR :: pre)
              ([STAR; STAR; STAR] ++ rest) (length [STAR; STAR; STAR])
            = replace_g false re_quad f [] rest O).
    rewrite skip_matched. apply replace_g_pre. reflexivity.
  - cbn [forallb] in Ha. apply andb_prop in Ha. destruct Ha as [Hc Ha].
    apply negb_true_iff in Hc. cbn [app replace_g].
    rewrite (quad_none pre c _ Hc). f_equal. apply (IH Ha).
Qed.

(** X19.  The first run of four asterisks of a text, when no asterisk
    stands before it, becomes two asterisks, and the rule goes on with
    what follows the run. *)
Theorem fixQuadAsterisks_first_run :
  forall a rest,
    forallb (fun c => negb (c =? STAR)) a = true ->
    fixQuadAsterisks (a ++ QUAD ++ rest)
    = a ++ [STAR; STAR] ++ fixQuadAsterisks rest.
Proof.
  intros a rest Ha. unfold fixQuadAsterisks, js_replace_g.
  exact (quad_walk (fun _ _ => [STAR; STAR]) a rest Ha []).
Qed.

Lemma fixQuadAsterisks_first_run_witness :
  fixQuadAsterisks (lit "a" ++ QUAD ++ lit "**b")
  = lit "a" ++ [STAR; STAR] ++ fixQuadAsterisks (lit "**b").
Proof. apply fixQuadAsterisks_first_run. reflexivity. Defined.

Lemma filter_run (p q : N -> bool) (w : jsstring) :
  (forall c, p c = true -> q c = false) ->
  forallb p w = true -> filter q w = [].
Proof.
  intros Hpq. induction w as [|c w IH]; intros H; [reflexivity|].
  cbn [forallb] in H. apply andb_prop in H. destruct H as [Hc Hw].
  cbn [filter]. rewrite (Hpq c Hc). apply IH, Hw.
Qed.

Lemma cleanNewlines_others : forall n s pre,
  (length s <= n)%nat ->
  filter (fun c => negb (c =? LF))
    (replace_g false re_newlines (fun _ _ => [LF; LF]) pre s O)
  = filter (fun c => negb (c =? LF)) s.
Proof.
  induction n as [|n IH]; intros s pre Hn.
  - destruct s; [reflexivity|cbn in Hn; lia].
  - destruct (starts_with NL3 s) eqn:E.
    + apply starts_with_split in E. unfold NL3 in E.
      cbn [length skipn app] in E.
      destruct s as [|a [|b [|c t]]]; try discriminate.
      injection E as -> -> ->.
      destruct (cleanNewlines_run [LF; LF] pre t) as [pre' ->].
      cbn [app filter]. rewrite N.eqb_refl. cbn [negb].
      rewrite IH.
      2:{ pose proof (length_dropWhile (fun c => c =? LF) t).
          cbn [length] in Hn. lia. }
      assert (E : filter (fun c => negb (c =? LF)) t
                  = filter (fun c => negb (c =? LF))
                      (dropWhile (fun c => c =? LF) t)).
      { rewrite <- (take_drop_while (fun c => c =? LF) t) at 1.
        rewrite filter_app, (filter_run (fun c => c =? LF));
          [reflexivity| |apply forallb_takeWhile].
        intros c ->. reflexivity. }
      rewrite E. reflexivity.
    + destruct s as [|c t]; [reflexivity|].
      cbn [replace_g]. rewrite (newlines_none _ _ E). cbn [filter].
      rewrite (IH t (c :: pre)) by (cbn [length] in Hn; lia). reflexivity.
Qed.

(** X20.  The newline rule removes newlines only: every other character
    of the text is kept, in the same order, and nothing is added but
    newlines. *)
Theorem cleanNewlines_keeps_text :
  forall x,
    filter (fun c => negb (c =? LF)) (cleanNewlines x)
    = filter (fun c => negb (c =? LF)) x.
Proof.
  intros x. apply (cleanNewlines_others (length x) x []). lia.
Qed.
